(** * Yahoo ticker mapping and quote fetching: a shallow embedding

    The repository holds two variants of one Streamlit script, [app.py]
    and [app3.py].  Both define the same three functions,

    - [get_yahoo_symbol_via_api]   (company name to ticker symbol),
    - [fetch_single_stock]         (ticker symbol to a row of metrics),
    - [fetch_yahoo_tickers_parallel] (thread-pool fan-out of the first),

    which are embedded below in [Module App] and [Module App3].  The network,
    the market-data provider and the clock are an explicit [world]; every
    call that leaves the process is recorded in a log threaded through a small
    state-and-exception monad. *)

From Stdlib Require Import ZArith.
From Stdlib Require Import Floats.PrimFloat.
From stdpp Require Import gmap strings list fin_maps.

(* Decimal literals denote the nearest binary64 number, as in Python. *)
Set Warnings "-inexact-float".

Local Open Scope Z_scope.
Local Open Scope string_scope.

(** ** Python values *)

(** A Python [float], and a [numpy.float64] alike, is an IEEE 754 binary64
    number: the primitive type [float], whose operations round to nearest,
    ties to even. *)

(** The scalars a DataFrame cell can hold: this is what [row['COMPANYNAME']],
    [row['YAHOO_SYMBOL']] and [row.get('ISIN', '')] evaluate to. *)
Inductive scalar :=
  | SNone
  | SBool (b : bool)
  | SInt (z : Z)
  | SFloat (f : float)
  | SStr (s : string).

(** Python objects as the scripts see them: scalars, lists and dicts with
    string keys (the result of [r.json()], the [info] dict, the returned
    rows). *)
#[warnings="-register-all"]
Inductive pyval :=
  | Sc (c : scalar)
  | PList (l : list pyval)
  | PDict (d : gmap string pyval).

Coercion Sc : scalar >-> pyval.

#[warnings="-notation-for-abbreviation"]
Notation PNone := (Sc SNone).
#[warnings="-notation-for-abbreviation"]
Notation PStr s := (Sc (SStr s)).
#[warnings="-notation-for-abbreviation"]
Notation PFloat f := (Sc (SFloat f)).

(** Exceptions that the embedded code can meet. *)
Inductive exn :=
  | AttributeError
  | TypeError
  | IndexError
  | NetworkError
  | JSONDecodeError
  | ProviderError.

Inductive result (A : Type) :=
  | Ok (a : A)
  | Raise (e : exn).
Arguments Ok {A} a.
Arguments Raise {A} e.

(** [bool(x)] for a scalar. NaN is truthy. *)
Definition truthy (c : scalar) : bool :=
  match c with
  | SNone => false
  | SBool b => b
  | SInt z => negb (Z.eqb z 0)
  | SFloat f => negb (PrimFloat.eqb f 0)
  | SStr s => negb (String.eqb s "")
  end.

(** [pd.isna(x)] for a scalar. *)
Definition pd_isna (c : scalar) : bool :=
  match c with
  | SNone => true
  | SFloat f => PrimFloat.is_nan f
  | _ => false
  end.

(** [isinstance(x, str)] *)
Definition is_str (c : scalar) : bool :=
  match c with SStr _ => true | _ => false end.

(** [x.get(key, default)]: only a dict has the method. *)
Definition py_get (x : pyval) (key : string) (dflt : pyval) : result pyval :=
  match x with
  | PDict d => Ok (default dflt (d !! key))
  | _ => Raise AttributeError
  end.

(** [dict.get(key, default)] on a value known to be a dict. *)
Definition dict_get (d : gmap string pyval) (key : string) (dflt : pyval)
  : pyval :=
  default dflt (d !! key).

(** The items a [for] loop draws from [x]: the elements of a list, the
    characters of a string, the keys of a dict; other values are not
    iterable. *)
Definition chars (s : string) : list pyval :=
  (λ a, PStr (String a EmptyString)) <$> String.list_ascii_of_string s.

Definition py_iter (x : pyval) : result (list pyval) :=
  match x with
  | PList l => Ok l
  | PDict d => Ok ((λ kv, PStr kv.1) <$> map_to_list d)
  | Sc (SStr s) => Ok (chars s)
  | _ => Raise TypeError
  end.

(** [x in [s1, s2, ...]] for a list of string literals: [==] against a string
    holds for that very string only. *)
Definition py_in_strs (x : pyval) (lits : list string) : bool :=
  match x with
  | Sc (SStr s) => bool_decide (s ∈ lits)
  | _ => false
  end.

(** [s.replace(" ", "%20")] *)
Fixpoint replace_space (s : string) : string :=
  match s with
  | EmptyString => EmptyString
  | String a rest =>
      if Ascii.eqb a (Ascii.ascii_of_nat 32) then "%20" +:+ replace_space rest
      else String a (replace_space rest)
  end.

(** [company_name.replace(" ", "%20")]: a method of [str] only. *)
Definition str_replace_space (c : scalar) : result string :=
  match c with
  | SStr s => Ok (replace_space s)
  | _ => Raise AttributeError
  end.

(** [rint]: the nearest integral float, ties to even.  Below 2^52 in
    magnitude, adding and taking away 2^52 leaves the rounded value; from
    2^52 on every float is integral; zeros, infinities and NaN are kept, and
    the result has the sign of the argument. *)
Definition two52 : float := 4503599627370496%float.

Definition rint (x : float) : float :=
  if PrimFloat.ltb (PrimFloat.abs x) two52 then
    if PrimFloat.eqb x 0 then x
    else if PrimFloat.ltb x 0 then
      PrimFloat.opp (PrimFloat.sub (PrimFloat.add (PrimFloat.opp x) two52) two52)
    else PrimFloat.sub (PrimFloat.add x two52) two52
  else x.

(** [round(x, 2)] on a [numpy.float64], which is what a cell of the history
    frame is: numpy multiplies by 100, applies [rint] and divides by 100,
    each step in binary64. *)
Definition round2 (x : float) : float :=
  PrimFloat.div (rint (PrimFloat.mul x 100)) 100.

(** ** The world outside the process *)

(** [requests.get(url, headers=..., timeout=...)]; [timeout = None] is
    requests' default and means the call waits without bound. *)
Record request := {
  url : string;
  headers : list (string * string);
  timeout : option Z
}.

(** An HTTP response, as far as the scripts use it: what [r.json()] gives. *)
Record response := {
  json : result pyval
}.

(** One session of [ticker.history(...)]: the columns the scripts read. *)
Record session := {
  High : float;
  Low : float
}.

Record world := {
  requests_get : request → result response;
  yf_Ticker : scalar → result unit;
  ticker_info : scalar → result (gmap string pyval);
  ticker_history : scalar → string → result (list session);
  strftime_now : string → string
}.

(** Calls that leave the process. *)
Inductive event :=
  | HttpGet (req : request)
  | YfTicker (symbol : scalar)
  | YfInfo (symbol : scalar)
  | YfHistory (symbol : scalar) (period : string).

(** ** State-and-exception monad over the call log *)

Definition M (A : Type) : Type := list event → result A * list event.

Definition ret {A} (a : A) : M A := λ log, (Ok a, log).

Definition bind {A B} (m : M A) (k : A → M B) : M B :=
  λ log,
    match m log with
    | (Ok a, log') => k a log'
    | (Raise e, log') => (Raise e, log')
    end.

(** [try: body except: handler] *)
Definition try_except {A} (body : M A) (handler : M A) : M A :=
  λ log,
    match body log with
    | (Ok a, log') => (Ok a, log')
    | (Raise _, log') => handler log'
    end.

Definition lift {A} (r : result A) : M A := λ log, (r, log).

Definition call {A} (ev : event) (r : result A) : M A :=
  λ log, (r, (log ++ [ev])%list).

#[global] Instance M_ret : MRet M := @ret.
#[global] Instance M_bind : MBind M := λ A B k m, bind m k.

Definition run {A} (m : M A) : result A * list event := m [].

(** The value a finished call hands to its caller, and the calls it made. *)
Definition outcome {A} (m : M A) : result A := (run m).1.
Definition calls {A} (m : M A) : list event := (run m).2.

(** ** What the two scripts share *)

(** The search endpoint and the client identity sent with every query. *)
Definition search_url : string :=
  "https://query2.finance.yahoo.com/v1/finance/search?q=".

Definition user_agent : list (string * string) :=
  [("User-Agent", "Mozilla/5.0")].

(** The loop over the candidates, identical in both scripts:
<<
    for item in data.get("quotes", []):
        if item.get("exchange") in ["NSI", "BSE"]:
            return item.get("symbol")
>>
    [Some v] stands for [return v] from inside the loop, [None] for a loop
    that ran to its end. *)
Fixpoint scan_quotes (items : list pyval) : result (option pyval) :=
  match items with
  | [] => Ok None
  | item :: rest =>
      match py_get item "exchange" PNone with
      | Raise e => Raise e
      | Ok exchange =>
          if py_in_strs exchange ["NSI"; "BSE"] then
            match py_get item "symbol" PNone with
            | Raise e => Raise e
            | Ok symbol => Ok (Some symbol)
            end
          else scan_quotes rest
      end
  end.

(** [col.iloc[-1]] and [frame.iloc[-1]]: the last entry, [IndexError] on an
    empty one. *)
Definition iloc_last {A} (l : list A) : result A :=
  match last l with
  | Some x => Ok x
  | None => Raise IndexError
  end.

(** [frame.empty] *)
Definition is_empty {A} (l : list A) : bool :=
  match l with [] => true | _ => false end.

(** A row of the company table.  The UI keeps a frame only if it has the
    [COMPANYNAME] column, so the lookup of that column cannot fail. *)
Record row := {
  COMPANYNAME : scalar
}.

(** The company table as [df.iterrows()] walks it: each row with its index
    label.  [pd.read_csv] labels the rows 0, 1, 2, ... unless the file makes
    it take a column as the index. *)
#[warnings="-notation-for-abbreviation"]
Notation frame := (list (scalar * row)) (only parsing).

(** A finished future: [future.result()] returns the worker's value or
    raises what the worker raised. *)
Definition future : Type := result pyval.

(** The position that a subscript [idx] denotes in a list of length [n]: an
    integer counts from the front, a negative one from the back, [True] and
    [False] are 1 and 0; out of range is an [IndexError], and anything that is
    not an integer a [TypeError]. *)
Definition list_position (n : nat) (idx : scalar) : result nat :=
  let at_int (z : Z) : result nat :=
    if Z.leb 0 z && Z.ltb z (Z.of_nat n) then Ok (Z.to_nat z)
    else if Z.leb (- Z.of_nat n) z && Z.ltb z 0
         then Ok (Z.to_nat (Z.of_nat n + z))
    else Raise IndexError in
  match idx with
  | SInt z => at_int z
  | SBool b => at_int (if b then 1 else 0)
  | _ => Raise TypeError
  end.

(** [results[idx] = v] *)
Definition list_setitem (results : list pyval) (idx : scalar) (v : pyval)
  : result (list pyval) :=
  match list_position (length results) idx with
  | Ok i => Ok (<[i := v]> results)
  | Raise e => Raise e
  end.

(** The body of the collecting loop, identical in both scripts up to the
    spelling of the handler:
<<
    idx = futures[future]
    try:
        results[idx] = future.result()
    except:
        results[idx] = None
>> *)
Definition store (results : list pyval) (entry : future * scalar)
  : result (list pyval) :=
  let (fut, idx) := entry in
  let attempt :=
    match fut with
    | Ok v => list_setitem results idx v
    | Raise e => Raise e
    end in
  match attempt with
  | Ok results' => Ok results'
  | Raise _ => list_setitem results idx PNone
  end.

(** [for future in as_completed(futures): ...] over the futures in the order
    in which they completed. *)
Fixpoint collect (completed : list (future * scalar)) (results : list pyval)
  : result (list pyval) :=
  match completed with
  | [] => Ok results
  | entry :: rest =>
      match store results entry with
      | Ok results' => collect rest results'
      | Raise e => Raise e
      end
  end.

(** A row of the ticker table read by the third step: the symbol cell, and
    the ISIN cell when the table has that column ([row.get('ISIN', '')]
    yields [''] when it has not). *)
Record ticker_row := {
  YAHOO_SYMBOL : scalar;
  ISIN : option scalar
}.

Definition row_get_ISIN (r : ticker_row) : scalar :=
  default (SStr "") (ISIN r).

(** The collecting loop of the third step, identical in both scripts:
<<
    data = []
    for future in as_completed(futures):
        data.append(future.result())
>>
    There is no handler here: a future that raised would end the loop. *)
Fixpoint gather (completed : list (result (gmap string pyval)))
    (data : list (gmap string pyval)) : result (list (gmap string pyval)) :=
  match completed with
  | [] => Ok data
  | fut :: rest =>
      match fut with
      | Ok r => gather rest (data ++ [r])%list
      | Raise e => Raise e
      end
  end.

(** ** app.py *)

Module App.

Definition search_request (query : string) : request :=
  {| url := search_url +:+ query; headers := user_agent; timeout := None |}.

Definition get_yahoo_symbol_via_api (w : world) (company_name : scalar)
  : M pyval :=
  query ← lift (str_replace_space company_name);
  try_except
    (r ← call (HttpGet (search_request query))
              (requests_get w (search_request query));
     data ← lift (json r);
     quotes ← lift (py_get data "quotes" (PList []));
     items ← lift (py_iter quotes);
     found ← lift (scan_quotes items);
     match found with
     | Some symbol => ret symbol
     | None => ret PNone
     end)
    (ret PNone).

Definition error_row (w : world) (symbol isin : scalar) : gmap string pyval :=
  {[ "ISIN" := Sc isin;
     "Symbol" := Sc symbol;
     "Current Price" := PStr "Error";
     "52 Week High" := PStr "Error";
     "52 Week Low" := PStr "Error";
     "Today's High" := PStr "Error";
     "Today's Low" := PStr "Error";
     "Date" := PStr (strftime_now w "%Y-%m-%d") ]}.

Definition fetch_single_stock (w : world) (symbol isin : scalar)
  : M (gmap string pyval) :=
  try_except
    (call (YfTicker symbol) (yf_Ticker w symbol) ;;
     info ← call (YfInfo symbol) (ticker_info w symbol);
     hist ← call (YfHistory symbol "1d") (ticker_history w symbol "1d");
     high ← (if negb (is_empty hist)
              then h ← lift (iloc_last (High <$> hist)); ret (PFloat h)
              else ret (PStr "N/A"));
     low ← (if negb (is_empty hist)
             then l ← lift (iloc_last (Low <$> hist)); ret (PFloat l)
             else ret (PStr "N/A"));
     ret {[ "ISIN" := Sc isin;
            "Symbol" := Sc symbol;
            "Current Price" := dict_get info "regularMarketPrice" (PStr "N/A");
            "52 Week High" := dict_get info "fiftyTwoWeekHigh" (PStr "N/A");
            "52 Week Low" := dict_get info "fiftyTwoWeekLow" (PStr "N/A");
            "Today's High" := high;
            "Today's Low" := low;
            "Date" := PStr (strftime_now w "%Y-%m-%d") ]})
    (ret (error_row w symbol isin)).

Definition fetch_symbol (w : world) (r : row) : M pyval :=
  get_yahoo_symbol_via_api w (COMPANYNAME r).

(** [{executor.submit(fetch_symbol, row): i for i, row in df.iterrows()}]:
    each future is stored with the index label of its row. *)
Definition submit_all (w : world) (df : frame) : list (future * scalar) :=
  (λ ir, (outcome (fetch_symbol w ir.2), ir.1)) <$> df.

(** [as_completed] is the order in which the pool finished the tasks. *)
Definition fetch_yahoo_tickers_parallel
    (as_completed : list (future * scalar) → list (future * scalar))
    (w : world) (df : frame) : result (list pyval) :=
  let results := replicate (length df) PNone in
  let futures := submit_all w df in
  collect (as_completed futures) results.

(** The third step, "Fetch Live Stock Data":
    [[executor.submit(fetch_single_stock, row['YAHOO_SYMBOL'],
                      row.get('ISIN', '')) for _, row in df_yahoo.iterrows()]]
    and the collecting loop. *)
Definition submit_quotes (w : world) (df_yahoo : list ticker_row)
  : list (result (gmap string pyval)) :=
  (λ r, outcome (fetch_single_stock w (YAHOO_SYMBOL r) (row_get_ISIN r)))
    <$> df_yahoo.

Definition fetch_live_stock_data
    (as_completed : list (result (gmap string pyval))
                    → list (result (gmap string pyval)))
    (w : world) (df_yahoo : list ticker_row)
  : result (list (gmap string pyval)) :=
  gather (as_completed (submit_quotes w df_yahoo)) [].

End App.

(** ** app3.py *)

Module App3.

Definition search_request (query : string) : request :=
  {| url := search_url +:+ query; headers := user_agent; timeout := Some 5 |}.

(** The [return] inside the loop leaves the function with the symbol; a
    loop that ends, and the handler's [pass], both fall through to the
    final [return None]. *)
Definition get_yahoo_symbol_via_api (w : world) (company_name : scalar)
  : M pyval :=
  query ← lift (str_replace_space company_name);
  returned ← try_except
    (r ← call (HttpGet (search_request query))
              (requests_get w (search_request query));
     data ← lift (json r);
     quotes ← lift (py_get data "quotes" (PList []));
     items ← lift (py_iter quotes);
     lift (scan_quotes items))
    (ret None);
  match returned with
  | Some symbol => ret symbol
  | None => ret PNone
  end.

Definition default : pyval := PStr "N/A".

Definition timestamp (w : world) : pyval :=
  PStr (strftime_now w "%Y-%m-%d %H:%M:%S").

Definition invalid_row (w : world) (symbol isin : scalar)
  : gmap string pyval :=
  {[ "ISIN" := Sc isin;
     "Symbol" := Sc symbol;
     "Current Price" := PStr "Invalid Symbol";
     "52‑Week High" := PStr "Invalid";
     "52‑Week Low" := PStr "Invalid";
     "Today's High" := PStr "Invalid";
     "Today's Low" := PStr "Invalid";
     "Scraped At" := timestamp w ]}.

Definition error_row (w : world) (symbol isin : scalar) : gmap string pyval :=
  {[ "ISIN" := Sc isin;
     "Symbol" := Sc symbol;
     "Current Price" := PStr "Error";
     "52‑Week High" := PStr "Error";
     "52‑Week Low" := PStr "Error";
     "Today's High" := PStr "Error";
     "Today's Low" := PStr "Error";
     "Scraped At" := timestamp w ]}.

Definition fetch_single_stock (w : world) (symbol isin : scalar)
  : M (gmap string pyval) :=
  if negb (truthy symbol) || pd_isna symbol then
    ret (invalid_row w symbol isin)
  else
    try_except
      (call (YfTicker symbol) (yf_Ticker w symbol) ;;
       info ← call (YfInfo symbol) (ticker_info w symbol);
       hist ← call (YfHistory symbol "2d") (ticker_history w symbol "2d");
       high_low ←
         (if is_empty hist then ret (default, default)
          else
            r ← lift (iloc_last hist);
            ret (PFloat (round2 (High r)), PFloat (round2 (Low r))));
       ret {[ "ISIN" := Sc isin;
              "Symbol" := Sc symbol;
              "Current Price" := dict_get info "regularMarketPrice" default;
              "52‑Week High" := dict_get info "fiftyTwoWeekHigh" default;
              "52‑Week Low" := dict_get info "fiftyTwoWeekLow" default;
              "Today's High" := high_low.1;
              "Today's Low" := high_low.2;
              "Scraped At" := timestamp w ]})
      (ret (error_row w symbol isin)).

(** [{executor.submit(get_yahoo_symbol_via_api, row['COMPANYNAME']): i
      for i, row in df.iterrows()}]: each future is stored with the index
    label of its row. *)
Definition submit_all (w : world) (df : frame) : list (future * scalar) :=
  (λ ir, (outcome (get_yahoo_symbol_via_api w (COMPANYNAME ir.2)), ir.1)) <$> df.

Definition fetch_yahoo_tickers_parallel
    (as_completed : list (future * scalar) → list (future * scalar))
    (w : world) (df : frame) : result (list pyval) :=
  let results := replicate (length df) PNone in
  let futures := submit_all w df in
  collect (as_completed futures) results.

(** The third step, "Fetch Current Data": the same fan-out and collecting
    loop as in [app.py], over this script's fetcher. *)
Definition submit_quotes (w : world) (df_yahoo : list ticker_row)
  : list (result (gmap string pyval)) :=
  (λ r, outcome (fetch_single_stock w (YAHOO_SYMBOL r) (row_get_ISIN r)))
    <$> df_yahoo.

Definition fetch_current_data
    (as_completed : list (result (gmap string pyval))
                    → list (result (gmap string pyval)))
    (w : world) (df_yahoo : list ticker_row)
  : result (list (gmap string pyval)) :=
  gather (as_completed (submit_quotes w df_yahoo)) [].

(** [(result_df[column] == sentinel).all()]: the comparison is made cell by
    cell, and a cell that is not a string differs from the sentinel. *)
Definition column_is (column sentinel : string) (data : list (gmap string pyval))
  : bool :=
  forallb (λ r, match r !! column with
                | Some (PStr s) => bool_decide (s = sentinel)
                | _ => false
                end) data.

(** The validation of the output, on the rows just fetched (the step runs
    only on a table that is not empty):
<<
    if (result_df["Today's High"] == "N/A").all() and
       (result_df["Today's Low"] == "N/A").all():
        st.error("All values are N/A. Market may be closed or symbols invalid.")
>> *)
Definition all_values_are_NA (data : list (gmap string pyval)) : bool :=
  column_is "Today's High" "N/A" data && column_is "Today's Low" "N/A" data.

End App3.

(** ** A concrete world for the examples *)

Definition example_quotes : pyval :=
  PDict {[ "quotes" := PList [
    PDict {[ "exchange" := PStr "NYQ"; "symbol" := PStr "EXMP" ]};
    PDict {[ "exchange" := PStr "NSI"; "symbol" := PStr "EXMP.NS" ]};
    PDict {[ "exchange" := PStr "BSE"; "symbol" := PStr "EXMP.BO" ]} ] ]}.

Definition example_info : gmap string pyval :=
  {[ "regularMarketPrice" := PFloat 100.5%float;
     "fiftyTwoWeekLow" := Sc (SInt 80) ]}.

Definition example_history : list session :=
  [ {| High := 100%float; Low := 98%float |};
    {| High := 101.239%float; Low := 98.761%float |} ].

Definition example_world : world :=
  {| requests_get := λ req,
       if String.eqb (url req) (search_url +:+ "Example%20Corp")
       then Ok {| json := Ok example_quotes |}
       else Raise NetworkError;
     yf_Ticker := λ symbol, if is_str symbol then Ok () else Raise AttributeError;
     ticker_info := λ symbol, Ok example_info;
     ticker_history := λ symbol period,
       match symbol with
       | SStr "EXMP.NS" => Ok example_history
       | _ => Ok []
       end;
     strftime_now := λ fmt, "2025-01-01" |}.

(** ** Vocabulary of the specification *)

(** A candidate of the search response is accepted when its exchange code is
    one of the two national exchanges. *)
Definition accepted (item : gmap string pyval) : Prop :=
  item !! "exchange" = Some (PStr "NSI") ∨ item !! "exchange" = Some (PStr "BSE").

(** A well-formed candidate that the selection rule passes over. *)
Definition rejected_candidate (c : pyval) : Prop :=
  ∃ item, c = PDict item ∧ ¬ accepted item.

(** The search answered [req] with a body that parses to [data]. *)
Definition search_response (w : world) (req : request) (data : pyval) : Prop :=
  ∃ r, requests_get w req = Ok r ∧ json r = Ok data.

(** The ways a search can end without an accepted candidate: the request
    fails (network error, timeout), the body is not JSON, the JSON is not an
    object, it carries no [quotes], or every candidate is rejected. *)
Inductive search_failure (w : world) (req : request) : Prop :=
  | network_failure e :
      requests_get w req = Raise e → search_failure w req
  | malformed_body r e :
      requests_get w req = Ok r → json r = Raise e → search_failure w req
  | not_an_object r data :
      requests_get w req = Ok r → json r = Ok data →
      (∀ d, data ≠ PDict d) → search_failure w req
  | no_quotes r d :
      requests_get w req = Ok r → json r = Ok (PDict d) →
      d !! "quotes" = None → search_failure w req
  | no_accepted_candidate r d qs :
      requests_get w req = Ok r → json r = Ok (PDict d) →
      d !! "quotes" = Some (PList qs) → Forall rejected_candidate qs →
      search_failure w req.


(** What both resolvers hand back once the request for a string name has
    been sent: the symbol picked by the loop, [None] on every other path. *)
Definition picked_symbol (w : world) (req : request) : pyval :=
  match requests_get w req with
  | Raise _ => PNone
  | Ok r =>
      match json r with
      | Raise _ => PNone
      | Ok data =>
          match py_get data "quotes" (PList []) with
          | Raise _ => PNone
          | Ok quotes =>
              match py_iter quotes with
              | Raise _ => PNone
              | Ok items =>
                  match scan_quotes items with
                  | Ok (Some symbol) => symbol
                  | _ => PNone
                  end
              end
          end
      end
  end.

(** The keys of a returned row, and those of its five metrics. *)
Definition app_keys : gset string :=
  {[ "ISIN"; "Symbol"; "Current Price"; "52 Week High"; "52 Week Low";
     "Today's High"; "Today's Low"; "Date" ]}.

Definition app3_keys : gset string :=
  {[ "ISIN"; "Symbol"; "Current Price"; "52‑Week High"; "52‑Week Low";
     "Today's High"; "Today's Low"; "Scraped At" ]}.

Definition app_metrics : list string :=
  [ "Current Price"; "52 Week High"; "52 Week Low";
    "Today's High"; "Today's Low" ].

Definition app3_metrics : list string :=
  [ "Current Price"; "52‑Week High"; "52‑Week Low";
    "Today's High"; "Today's Low" ].

(** Every listed column of the row holds the sentinel. *)
Definition flagged (columns : list string) (sentinel : string)
    (r : gmap string pyval) : Prop :=
  Forall (λ k, r !! k = Some (PStr sentinel)) columns.

(** The status of a row is read off its metrics: an error row has all five
    set to ["Error"]. *)
Definition is_error_row (metrics : list string) (r : gmap string pyval) : Prop :=
  flagged metrics "Error" r.

(** A snapshot field shows in its column, or the column is ["N/A"] when the
    snapshot lacks the field. *)
Definition degrades (info r : gmap string pyval) (field column : string) : Prop :=
  match info !! field with
  | Some v => r !! column = Some v
  | None => r !! column = Some (PStr "N/A")
  end.

(** The precondition that [app3.py] tests: [not symbol or pd.isna(symbol)]. *)
Definition invalid_symbol (symbol : scalar) : Prop :=
  truthy symbol = false ∨ pd_isna symbol = true.

(** What a slot of the result list holds for a finished future. *)
Definition slot (fut : future) : pyval :=
  match fut with
  | Ok v => v
  | Raise _ => PNone
  end.

(** [as_completed] may hand the futures over in any order. *)
Definition any_order
    (as_completed : list (future * scalar) → list (future * scalar)) : Prop :=
  ∀ futures, as_completed futures ≡ₚ futures.

(** The futures of a pool whose tasks run [worker] on the rows, each paired
    with the index of its row. *)
Definition submitted (worker : row → future) (df : frame)
  : list (future * scalar) :=
  (λ ir, (worker ir.2, ir.1)) <$> df.

(** The frame that [pd.read_csv] builds from rows that match the header:
    the label of a row is its position. *)
Definition with_default_index (rows : list row) : frame :=
  imap (λ i r, (SInt (Z.of_nat i), r)) rows.

Definition default_index (df : frame) : Prop :=
  df = with_default_index df.*2.

(** The position that a valid subscript denotes (0 stands in for a subscript
    that is not valid). *)
Definition position (n : nat) (idx : scalar) : nat :=
  match list_position n idx with
  | Ok i => i
  | Raise _ => 0%nat
  end.

Definition valid_index (n : nat) (idx : scalar) : Prop :=
  ∃ i, list_position n idx = Ok i.

(** Every label of the frame denotes a position of a list as long as the
    frame, and no two labels denote the same one. *)
Definition distinct_positions (df : frame) : Prop :=
  Forall (λ ir : scalar * row, valid_index (length df) ir.1) df
  ∧ NoDup ((λ ir : scalar * row, position (length df) ir.1) <$> df).

(** A table with a blank company name, as [pd.read_csv] loads it. *)
Definition example_table : frame :=
  with_default_index
    [ {| COMPANYNAME := SStr "Example Corp" |};
      {| COMPANYNAME := SFloat nan |};
      {| COMPANYNAME := SStr "Nowhere Ltd" |};
      {| COMPANYNAME := SStr "Example Corp" |} ].

(** Frames whose labels are not the positions: two rows labelled 1 and 0,
    two rows labelled 0 and 5, and two rows both labelled 0. *)
Definition example_swapped_table : frame :=
  [ (SInt 1, {| COMPANYNAME := SFloat nan |});
    (SInt 0, {| COMPANYNAME := SStr "Example Corp" |}) ].

Definition example_sparse_table : frame :=
  [ (SInt 0, {| COMPANYNAME := SFloat nan |});
    (SInt 5, {| COMPANYNAME := SStr "Example Corp" |}) ].

Definition example_repeated_table : frame :=
  [ (SInt 0, {| COMPANYNAME := SStr "Example Corp" |});
    (SInt 0, {| COMPANYNAME := SStr "Nowhere Ltd" |}) ].

(** One of the three provider calls of a fetch raises. *)
Definition provider_fails (w : world) (symbol : scalar) (period : string)
  : Prop :=
  (∃ e, yf_Ticker w symbol = Raise e)
  ∨ (∃ e, ticker_info w symbol = Raise e)
  ∨ (∃ e, ticker_history w symbol period = Raise e).

(** The provider answers all three calls of a fetch, with an empty
    history. *)
Definition market_closed (w : world) (symbol : scalar) (period : string)
  : Prop :=
  yf_Ticker w symbol = Ok ()
  ∧ (∃ info, ticker_info w symbol = Ok info)
  ∧ ticker_history w symbol period = Ok [].

(** [as_completed] over a list of futures of any kind. *)
Definition completion_order {A} (as_completed : list A → list A) : Prop :=
  ∀ futures, as_completed futures ≡ₚ futures.

(** The space character that [replace] looks for. *)
Definition space : Ascii.ascii := Ascii.ascii_of_nat 32.

(** A search answer whose second entry is not an object. *)
Definition example_malformed_quotes : pyval :=
  PDict {[ "quotes" := PList [
    PDict {[ "exchange" := PStr "NYQ"; "symbol" := PStr "EXMP" ]};
    PNone;
    PDict {[ "exchange" := PStr "NSI"; "symbol" := PStr "EXMP.NS" ]} ] ]}.

Definition example_malformed_world : world :=
  {| requests_get := λ req, Ok {| json := Ok example_malformed_quotes |};
     yf_Ticker := λ symbol, Ok ();
     ticker_info := λ symbol, Ok example_info;
     ticker_history := λ symbol period, Ok [];
     strftime_now := λ fmt, "2025-01-01" |}.

Definition example_tickers : list ticker_row :=
  [ {| YAHOO_SYMBOL := SStr "EXMP.NS"; ISIN := Some (SStr "A1") |};
    {| YAHOO_SYMBOL := SStr "IDLE.NS"; ISIN := Some (SStr "A2") |};
    {| YAHOO_SYMBOL := SFloat nan; ISIN := None |} ].

Definition example_idle_tickers : list ticker_row :=
  [ {| YAHOO_SYMBOL := SStr "IDLE.NS"; ISIN := Some (SStr "A2") |};
    {| YAHOO_SYMBOL := SStr "REST.BO"; ISIN := None |} ].

(** A world whose search answers every request with the same JSON value. *)
Definition answering (data : pyval) : world :=
  {| requests_get := λ req, Ok {| json := Ok data |};
     yf_Ticker := λ symbol, Ok ();
     ticker_info := λ symbol, Ok example_info;
     ticker_history := λ symbol period, Ok [];
     strftime_now := λ fmt, "2025-01-01" |}.

(** ** Tactics *)

(** Unfold the monad down to pairs of a result and a log. *)
Ltac unfold_monad :=
  unfold outcome, calls, run, try_except, mbind, M_bind, bind, mret, M_ret,
    ret, lift, call in *.

(** ** The symbol resolver *)

Lemma py_in_strs_accepted (item : gmap string pyval) :
  py_in_strs (default PNone (item !! "exchange")) ["NSI"; "BSE"] = true ↔
  accepted item.
Proof.
  unfold accepted, py_in_strs.
  destruct (item !! "exchange") as [[[| | | |s]| |]|] eqn:E; simpl;
    try (split; [discriminate | intros [?|?]; discriminate]).
  rewrite bool_decide_eq_true. split.
  - intros Hs. apply elem_of_cons in Hs as [->|Hs]; [by left|].
    apply elem_of_cons in Hs as [->|Hs]; [by right|].
    by apply elem_of_nil in Hs.
  - intros [[= ->]|[= ->]]; set_solver.
Qed.

Lemma scan_quotes_first_accepted pre item post :
  Forall rejected_candidate pre →
  accepted item →
  scan_quotes (pre ++ PDict item :: post) = Ok (Some (dict_get item "symbol" PNone)).
Proof.
  intros Hpre Hacc. induction Hpre as [|c pre [d [-> Hrej]] _ IH]; simpl.
  - apply py_in_strs_accepted in Hacc. by rewrite Hacc.
  - destruct (py_in_strs _ _) eqn:E; [|exact IH].
    apply py_in_strs_accepted in E. contradiction.
Qed.

Lemma scan_quotes_all_rejected qs :
  Forall rejected_candidate qs → scan_quotes qs = Ok None.
Proof.
  induction 1 as [|c qs [d [-> Hrej]] _ IH]; simpl; [done|].
  destruct (py_in_strs _ _) eqn:E; [|exact IH].
  apply py_in_strs_accepted in E. contradiction.
Qed.

Lemma app_resolver_run w name :
  run (App.get_yahoo_symbol_via_api w (SStr name)) =
  let req := App.search_request (replace_space name) in
  (Ok (picked_symbol w req), [HttpGet req]).
Proof.
  unfold App.get_yahoo_symbol_via_api, picked_symbol. unfold_monad. simpl.
  destruct (requests_get w _) as [r|]; [|done].
  destruct (json r) as [data|]; [|done].
  destruct (py_get data _ _) as [quotes|]; [|done].
  destruct (py_iter quotes) as [items|]; [|done].
  by destruct (scan_quotes items) as [[symbol|]|].
Qed.

Lemma app3_resolver_run w name :
  run (App3.get_yahoo_symbol_via_api w (SStr name)) =
  let req := App3.search_request (replace_space name) in
  (Ok (picked_symbol w req), [HttpGet req]).
Proof.
  unfold App3.get_yahoo_symbol_via_api, picked_symbol. unfold_monad. simpl.
  destruct (requests_get w _) as [r|]; [|done].
  destruct (json r) as [data|]; [|done].
  destruct (py_get data _ _) as [quotes|]; [|done].
  destruct (py_iter quotes) as [items|]; [|done].
  by destruct (scan_quotes items) as [[symbol|]|].
Qed.

Lemma search_failure_no_symbol w req :
  search_failure w req →
  picked_symbol w req = PNone.
Proof.
  unfold picked_symbol.
  intros [e He|r e Hr He|r data Hr Hd Hno|r d Hr Hd Hq|r d qs Hr Hd Hq Hrej].
  - by rewrite He.
  - by rewrite Hr, He.
  - rewrite Hr, Hd. destruct data as [c|l|d]; simpl; try done.
    by destruct (Hno d).
  - rewrite Hr, Hd. simpl. by rewrite Hq.
  - rewrite Hr, Hd. simpl. rewrite Hq. simpl.
    by rewrite (scan_quotes_all_rejected qs Hrej).
Qed.

(** C4: on a search response whose [quotes] list is [pre ++ item :: post],
    with every candidate of [pre] rejected and [item] accepted (exchange NSI
    or BSE), both resolvers return [item.get("symbol")], whatever [post]
    holds: the first accepted candidate in response order wins and nothing
    after it is looked at. *)
Theorem resolver_returns_first_accepted_candidate
    (w : world) (name : string) (d : gmap string pyval)
    (pre : list pyval) (item : gmap string pyval) (post : list pyval) :
  d !! "quotes" = Some (PList (pre ++ PDict item :: post)) →
  Forall rejected_candidate pre →
  accepted item →
  (search_response w (App.search_request (replace_space name)) (PDict d) →
   outcome (App.get_yahoo_symbol_via_api w (SStr name))
   = Ok (dict_get item "symbol" PNone))
  ∧
  (search_response w (App3.search_request (replace_space name)) (PDict d) →
   outcome (App3.get_yahoo_symbol_via_api w (SStr name))
   = Ok (dict_get item "symbol" PNone)).
Proof.
  intros Hq Hpre Hacc.
  pose proof (scan_quotes_first_accepted pre item post Hpre Hacc) as Hscan.
  split; intros (r & Hr & Hd); unfold outcome.
  - rewrite app_resolver_run. unfold picked_symbol. simpl.
    rewrite Hr, Hd. simpl. rewrite Hq. simpl. by rewrite Hscan.
  - rewrite app3_resolver_run. unfold picked_symbol. simpl.
    rewrite Hr, Hd. simpl. rewrite Hq. simpl. by rewrite Hscan.
Qed.

Lemma resolver_returns_first_accepted_candidate_witness :
  outcome (App.get_yahoo_symbol_via_api example_world (SStr "Example Corp"))
  = Ok (PStr "EXMP.NS")
  ∧ outcome (App3.get_yahoo_symbol_via_api example_world (SStr "Example Corp"))
  = Ok (PStr "EXMP.NS").
Proof.
  assert (Hrej : Forall rejected_candidate
            [PDict {[ "exchange" := PStr "NYQ"; "symbol" := PStr "EXMP" ]}]).
  { constructor; [|constructor]. eexists. split; [reflexivity|].
    intros [H|H]; vm_compute in H; discriminate H. }
  assert (Hacc : accepted {[ "exchange" := PStr "NSI"; "symbol" := PStr "EXMP.NS" ]}).
  { left. vm_compute. reflexivity. }
  assert (Hq : ({[ "quotes" := PList [
                   PDict {[ "exchange" := PStr "NYQ"; "symbol" := PStr "EXMP" ]};
                   PDict {[ "exchange" := PStr "NSI"; "symbol" := PStr "EXMP.NS" ]};
                   PDict {[ "exchange" := PStr "BSE"; "symbol" := PStr "EXMP.BO" ]} ] ]}
                 : gmap string pyval) !! "quotes"
               = Some (PList (
                   [PDict {[ "exchange" := PStr "NYQ"; "symbol" := PStr "EXMP" ]}]
                   ++ PDict {[ "exchange" := PStr "NSI"; "symbol" := PStr "EXMP.NS" ]}
                   :: [PDict {[ "exchange" := PStr "BSE"; "symbol" := PStr "EXMP.BO" ]}]))).
  { vm_compute. reflexivity. }
  destruct (resolver_returns_first_accepted_candidate example_world
              "Example Corp" _ _ _ _ Hq Hrej Hacc) as [HA HB].
  split.
  - apply HA. exists {| json := Ok example_quotes |}. split; reflexivity.
  - apply HB. exists {| json := Ok example_quotes |}. split; reflexivity.
Defined.

(** C5 (as stated, refuted): a company name that is not a string, such as
    the NaN that [pd.read_csv] gives for a blank cell, makes
    [company_name.replace] raise before the [try] is entered, and the
    exception reaches the caller. *)
Lemma resolver_raises_on_non_string_name :
  outcome (App.get_yahoo_symbol_via_api example_world (SFloat nan))
  = Raise AttributeError
  ∧ outcome (App3.get_yahoo_symbol_via_api example_world (SFloat nan))
  = Raise AttributeError.
Proof. split; reflexivity. Qed.

(** C5 (amended): for every company name that is a string, both resolvers
    return a value and never raise, whatever the network does; and when the
    search fails (request error or timeout, body that is not JSON, JSON that
    is not an object or has no [quotes], no accepted candidate) the value
    returned is [None]. *)
Theorem resolver_never_raises_on_string_name (w : world) (name : string) :
  (∃ v, outcome (App.get_yahoo_symbol_via_api w (SStr name)) = Ok v)
  ∧ (∃ v, outcome (App3.get_yahoo_symbol_via_api w (SStr name)) = Ok v)
  ∧ (search_failure w (App.search_request (replace_space name)) →
     outcome (App.get_yahoo_symbol_via_api w (SStr name)) = Ok PNone)
  ∧ (search_failure w (App3.search_request (replace_space name)) →
     outcome (App3.get_yahoo_symbol_via_api w (SStr name)) = Ok PNone).
Proof.
  unfold outcome. rewrite app_resolver_run, app3_resolver_run. simpl.
  repeat split; eauto.
  - intros Hfail. by rewrite (search_failure_no_symbol _ _ Hfail).
  - intros Hfail. by rewrite (search_failure_no_symbol _ _ Hfail).
Qed.

Lemma resolver_never_raises_on_string_name_witness :
  outcome (App.get_yahoo_symbol_via_api example_world (SStr "Nowhere Ltd"))
  = Ok PNone
  ∧ outcome (App3.get_yahoo_symbol_via_api example_world (SStr "Nowhere Ltd"))
  = Ok PNone.
Proof.
  destruct (resolver_never_raises_on_string_name example_world "Nowhere Ltd")
    as (_ & _ & HA & HB).
  split.
  - apply HA. apply (network_failure _ _ NetworkError). reflexivity.
  - apply HB. apply (network_failure _ _ NetworkError). reflexivity.
Defined.

(** C9 (the defect): the one request that [app.py]'s resolver sends carries
    no timeout at all. *)
Theorem app_search_request_has_no_timeout (w : world) (name : string) :
  calls (App.get_yahoo_symbol_via_api w (SStr name))
  = [HttpGet {| url := search_url +:+ replace_space name;
                headers := user_agent;
                timeout := None |}].
Proof. unfold calls. by rewrite app_resolver_run. Qed.

(** [app3.py]'s resolver sends the same request with a timeout of five
    seconds. *)
Lemma app3_search_request_has_timeout (w : world) (name : string) :
  calls (App3.get_yahoo_symbol_via_api w (SStr name))
  = [HttpGet {| url := search_url +:+ replace_space name;
                headers := user_agent;
                timeout := Some 5 |}].
Proof. unfold calls. by rewrite app3_resolver_run. Qed.

(** ** The quote fetcher *)

Lemma app3_fetch_invalid w symbol isin :
  invalid_symbol symbol →
  run (App3.fetch_single_stock w symbol isin)
  = (Ok (App3.invalid_row w symbol isin), []).
Proof.
  intros Hinv. unfold App3.fetch_single_stock.
  replace (negb (truthy symbol) || pd_isna symbol) with true; [done|].
  symmetry. apply orb_true_iff. destruct Hinv as [->| ->]; auto.
Qed.

Lemma app3_fetch_answered w symbol isin info hist :
  ¬ invalid_symbol symbol →
  yf_Ticker w symbol = Ok () →
  ticker_info w symbol = Ok info →
  ticker_history w symbol "2d" = Ok hist →
  run (App3.fetch_single_stock w symbol isin)
  = (Ok {[ "ISIN" := Sc isin;
           "Symbol" := Sc symbol;
           "Current Price" := dict_get info "regularMarketPrice" App3.default;
           "52‑Week High" := dict_get info "fiftyTwoWeekHigh" App3.default;
           "52‑Week Low" := dict_get info "fiftyTwoWeekLow" App3.default;
           "Today's High" :=
             from_option (λ s, PFloat (round2 (High s))) App3.default (last hist);
           "Today's Low" :=
             from_option (λ s, PFloat (round2 (Low s))) App3.default (last hist);
           "Scraped At" := App3.timestamp w ]},
     [YfTicker symbol; YfInfo symbol; YfHistory symbol "2d"]).
Proof.
  intros Hvalid HT HI HH. unfold App3.fetch_single_stock.
  destruct (negb (truthy symbol) || pd_isna symbol) eqn:G.
  { destruct Hvalid. apply orb_true_iff in G as [G|G]; [left|by right].
    by apply negb_true_iff. }
  unfold_monad. simpl. rewrite HT, HI, HH.
  destruct hist as [|s hist]; [done|].
  unfold iloc_last. simpl is_empty. cbv iota.
  destruct (last (s :: hist)) eqn:L; [reflexivity|].
  by apply last_None in L.
Qed.

Lemma app_fetch_answered w symbol isin info hist :
  yf_Ticker w symbol = Ok () →
  ticker_info w symbol = Ok info →
  ticker_history w symbol "1d" = Ok hist →
  run (App.fetch_single_stock w symbol isin)
  = (Ok {[ "ISIN" := Sc isin;
           "Symbol" := Sc symbol;
           "Current Price" := dict_get info "regularMarketPrice" (PStr "N/A");
           "52 Week High" := dict_get info "fiftyTwoWeekHigh" (PStr "N/A");
           "52 Week Low" := dict_get info "fiftyTwoWeekLow" (PStr "N/A");
           "Today's High" :=
             from_option (λ s, PFloat (High s)) (PStr "N/A") (last hist);
           "Today's Low" :=
             from_option (λ s, PFloat (Low s)) (PStr "N/A") (last hist);
           "Date" := PStr (strftime_now w "%Y-%m-%d") ]},
     [YfTicker symbol; YfInfo symbol; YfHistory symbol "1d"]).
Proof.
  intros HT HI HH. unfold App.fetch_single_stock.
  unfold_monad. simpl. rewrite HT, HI, HH.
  destruct hist as [|s hist]; [done|].
  unfold iloc_last. simpl is_empty. cbv iota. simpl negb. cbv iota.
  rewrite !fmap_last.
  destruct (last (s :: hist)) eqn:L; [reflexivity|].
  by apply last_None in L.
Qed.

(** C1 (as stated, refuted): a symbol that is not a string but is truthy,
    such as the number 5, passes the precondition of [app3.py] and the
    provider is called; [app.py] has no precondition and calls the provider
    for the empty string as well. *)
Lemma truthy_non_string_symbol_reaches_provider :
  is_str (SInt 5) = false
  ∧ calls (App3.fetch_single_stock example_world (SInt 5) (SStr "A1"))
    = [YfTicker (SInt 5)]
  ∧ outcome (App3.fetch_single_stock example_world (SInt 5) (SStr "A1"))
    = Ok (App3.error_row example_world (SInt 5) (SStr "A1"))
  ∧ calls (App.fetch_single_stock example_world (SStr "") (SStr "A1"))
    = [YfTicker (SStr ""); YfInfo (SStr ""); YfHistory (SStr "") "1d"].
Proof. repeat split; reflexivity. Qed.

(** The scalars that [app3.py] treats as an invalid symbol. *)
Lemma invalid_symbol_cases (symbol : scalar) :
  invalid_symbol symbol ↔
  symbol = SNone ∨ symbol = SBool false ∨ symbol = SInt 0 ∨ symbol = SStr ""
  ∨ ∃ f, symbol = SFloat f
         ∧ (PrimFloat.eqb f 0 = true ∨ PrimFloat.is_nan f = true).
Proof.
  unfold invalid_symbol. split.
  - destruct symbol as [|[]|z|f|s]; simpl; intros [H|H];
      try discriminate; auto 10.
    + apply negb_false_iff, Z.eqb_eq in H. subst. auto.
    + apply negb_false_iff in H. eauto 10.
    + eauto 10.
    + apply negb_false_iff, String.eqb_eq in H. subst. auto 10.
  - intros [->|[->|[->|[->|[f [-> [Hf|Hf]]]]]]]; simpl; auto.
    left. by rewrite Hf.
Qed.

(** C1 (amended): whenever [not symbol or pd.isna(symbol)] holds (None, the
    empty string, zero, False, NaN), [app3.py]'s fetcher returns at once,
    without any call to the provider, a row whose price column reads
    ["Invalid Symbol"] and whose four other metrics read ["Invalid"]. *)
Theorem invalid_symbol_short_circuits (w : world) (symbol isin : scalar) :
  invalid_symbol symbol →
  ∃ r, run (App3.fetch_single_stock w symbol isin) = (Ok r, [])
       ∧ r !! "Current Price" = Some (PStr "Invalid Symbol")
       ∧ flagged [ "52‑Week High"; "52‑Week Low"; "Today's High"; "Today's Low" ]
           "Invalid" r.
Proof.
  intros Hinv. exists (App3.invalid_row w symbol isin).
  split; [by apply app3_fetch_invalid|].
  split; [reflexivity|].
  repeat constructor.
Qed.

Lemma invalid_symbol_short_circuits_witness :
  ∃ r, run (App3.fetch_single_stock example_world (SStr "") (SStr "A1"))
       = (Ok r, [])
       ∧ r !! "Current Price" = Some (PStr "Invalid Symbol")
       ∧ flagged [ "52‑Week High"; "52‑Week Low"; "Today's High"; "Today's Low" ]
           "Invalid" r.
Proof.
  apply (invalid_symbol_short_circuits example_world (SStr "") (SStr "A1")).
  left. reflexivity.
Defined.

(** C6 (as stated, refuted): [app.py] reports the last session's High as the
    provider gave it, 101.239, and not its rounding 101.24. *)
Lemma app_todays_high_is_not_rounded :
  ∃ r s,
    ticker_history example_world (SStr "EXMP.NS") "1d" = Ok example_history
    ∧ last example_history = Some s
    ∧ outcome (App.fetch_single_stock example_world (SStr "EXMP.NS") (SStr "A1"))
      = Ok r
    ∧ r !! "Today's High" = Some (PFloat 101.239%float)
    ∧ r !! "Today's High" ≠ Some (PFloat (round2 (High s))).
Proof.
  eexists _, _. split; [reflexivity|]. split; [reflexivity|].
  split; [reflexivity|]. split; [reflexivity|].
  intros H.
  apply (f_equal (λ o, match o with
                       | Some (PFloat x) => PrimFloat.eqb x 101.239%float
                       | _ => false
                       end)) in H.
  vm_compute in H. discriminate H.
Qed.

(** [round(x, 2)] works in binary: 2.675 is stored just below the tie and
    still goes up, 1.005 goes down. *)
Example round2_is_binary :
  round2 2.675%float = 2.68%float
  ∧ round2 1.005%float = 1%float
  ∧ round2 101.239%float = 101.24%float
  ∧ round2 98.761%float = 98.76%float.
Proof. repeat split; reflexivity. Qed.

(** C6 (amended): when the provider builds the ticker, delivers the snapshot
    and answers the history request with a window whose most recent session
    is [s], the row of [app3.py] (for a symbol that passes its precondition)
    shows the High and Low of [s] rounded to two decimals, and the row of
    [app.py] shows the High and Low of [s] as they are. *)
Theorem todays_high_low_come_from_last_session
    (w : world) (symbol isin : scalar) (info : gmap string pyval)
    (hist : list session) (s : session) :
  yf_Ticker w symbol = Ok () →
  ticker_info w symbol = Ok info →
  last hist = Some s →
  (¬ invalid_symbol symbol →
   ticker_history w symbol "2d" = Ok hist →
   ∃ r, outcome (App3.fetch_single_stock w symbol isin) = Ok r
        ∧ r !! "Today's High" = Some (PFloat (round2 (High s)))
        ∧ r !! "Today's Low" = Some (PFloat (round2 (Low s))))
  ∧
  (ticker_history w symbol "1d" = Ok hist →
   ∃ r, outcome (App.fetch_single_stock w symbol isin) = Ok r
        ∧ r !! "Today's High" = Some (PFloat (High s))
        ∧ r !! "Today's Low" = Some (PFloat (Low s))).
Proof.
  intros HT HI Hlast. split.
  - intros Hvalid HH. unfold outcome.
    rewrite (app3_fetch_answered w symbol isin info hist Hvalid HT HI HH).
    rewrite Hlast. eexists. split; [reflexivity|]. split; reflexivity.
  - intros HH. unfold outcome.
    rewrite (app_fetch_answered w symbol isin info hist HT HI HH).
    rewrite Hlast. eexists. split; [reflexivity|]. split; reflexivity.
Qed.

Lemma valid_symbol_example (s : string) :
  String.eqb s "" = false → ¬ invalid_symbol (SStr s).
Proof. intros Hs [H|H]; simpl in H; [|discriminate H]. by rewrite Hs in H. Defined.

Lemma todays_high_low_come_from_last_session_witness :
  (∃ r, outcome (App3.fetch_single_stock example_world (SStr "EXMP.NS") (SStr "A1"))
        = Ok r
        ∧ r !! "Today's High" = Some (PFloat (round2 101.239%float))
        ∧ r !! "Today's Low" = Some (PFloat (round2 98.761%float)))
  ∧
  (∃ r, outcome (App.fetch_single_stock example_world (SStr "EXMP.NS") (SStr "A1"))
        = Ok r
        ∧ r !! "Today's High" = Some (PFloat 101.239%float)
        ∧ r !! "Today's Low" = Some (PFloat 98.761%float)).
Proof.
  destruct (todays_high_low_come_from_last_session example_world
              (SStr "EXMP.NS") (SStr "A1") example_info example_history
              {| High := 101.239%float; Low := 98.761%float |}
              eq_refl eq_refl eq_refl) as [H3 H1].
  split.
  - apply H3; [|reflexivity]. by apply valid_symbol_example.
  - apply H1. reflexivity.
Defined.

(** C7: when the provider builds the ticker, delivers the snapshot and
    answers the history request with an empty window, both fetchers ([app3.py]
    for a symbol that passes its precondition) return a row whose two columns
    for today read ["N/A"], and the row is not the error row. *)
Theorem empty_history_degrades_to_unavailable
    (w : world) (symbol isin : scalar) (info : gmap string pyval) :
  yf_Ticker w symbol = Ok () →
  ticker_info w symbol = Ok info →
  (¬ invalid_symbol symbol →
   ticker_history w symbol "2d" = Ok [] →
   ∃ r, outcome (App3.fetch_single_stock w symbol isin) = Ok r
        ∧ r !! "Today's High" = Some (PStr "N/A")
        ∧ r !! "Today's Low" = Some (PStr "N/A")
        ∧ ¬ is_error_row app3_metrics r)
  ∧
  (ticker_history w symbol "1d" = Ok [] →
   ∃ r, outcome (App.fetch_single_stock w symbol isin) = Ok r
        ∧ r !! "Today's High" = Some (PStr "N/A")
        ∧ r !! "Today's Low" = Some (PStr "N/A")
        ∧ ¬ is_error_row app_metrics r).
Proof.
  intros HT HI. split.
  - intros Hvalid HH. unfold outcome.
    rewrite (app3_fetch_answered w symbol isin info [] Hvalid HT HI HH).
    eexists. split; [reflexivity|]. split; [reflexivity|].
    split; [reflexivity|].
    intros Herr. unfold is_error_row, flagged, app3_metrics in Herr.
    rewrite !Forall_cons in Herr. destruct Herr as (_ & _ & _ & Hhigh & _).
    vm_compute in Hhigh. discriminate Hhigh.
  - intros HH. unfold outcome.
    rewrite (app_fetch_answered w symbol isin info [] HT HI HH).
    eexists. split; [reflexivity|]. split; [reflexivity|].
    split; [reflexivity|].
    intros Herr. unfold is_error_row, flagged, app_metrics in Herr.
    rewrite !Forall_cons in Herr. destruct Herr as (_ & _ & _ & Hhigh & _).
    vm_compute in Hhigh. discriminate Hhigh.
Qed.

Lemma empty_history_degrades_to_unavailable_witness :
  (∃ r, outcome (App3.fetch_single_stock example_world (SStr "IDLE.NS") (SStr "A2"))
        = Ok r
        ∧ r !! "Today's High" = Some (PStr "N/A")
        ∧ r !! "Today's Low" = Some (PStr "N/A")
        ∧ ¬ is_error_row app3_metrics r)
  ∧
  (∃ r, outcome (App.fetch_single_stock example_world (SStr "IDLE.NS") (SStr "A2"))
        = Ok r
        ∧ r !! "Today's High" = Some (PStr "N/A")
        ∧ r !! "Today's Low" = Some (PStr "N/A")
        ∧ ¬ is_error_row app_metrics r).
Proof.
  destruct (empty_history_degrades_to_unavailable example_world
              (SStr "IDLE.NS") (SStr "A2") example_info eq_refl eq_refl)
    as [H3 H1].
  split.
  - apply H3; [|reflexivity]. by apply valid_symbol_example.
  - apply H1. reflexivity.
Defined.

(** C8: when the provider builds the ticker, delivers the snapshot [info] and
    answers the history request, both fetchers ([app3.py] for a symbol that
    passes its precondition) return a row in which each of the three snapshot
    columns holds the value of its field if [info] has the field and ["N/A"]
    if it has not, each column on its own: a missing field never turns the
    row into the error row. *)
Theorem missing_snapshot_fields_degrade_independently
    (w : world) (symbol isin : scalar)
    (info : gmap string pyval) (hist : list session) :
  yf_Ticker w symbol = Ok () →
  ticker_info w symbol = Ok info →
  (¬ invalid_symbol symbol →
   ticker_history w symbol "2d" = Ok hist →
   ∃ r, outcome (App3.fetch_single_stock w symbol isin) = Ok r
        ∧ degrades info r "regularMarketPrice" "Current Price"
        ∧ degrades info r "fiftyTwoWeekHigh" "52‑Week High"
        ∧ degrades info r "fiftyTwoWeekLow" "52‑Week Low"
        ∧ ¬ is_error_row app3_metrics r)
  ∧
  (ticker_history w symbol "1d" = Ok hist →
   ∃ r, outcome (App.fetch_single_stock w symbol isin) = Ok r
        ∧ degrades info r "regularMarketPrice" "Current Price"
        ∧ degrades info r "fiftyTwoWeekHigh" "52 Week High"
        ∧ degrades info r "fiftyTwoWeekLow" "52 Week Low"
        ∧ ¬ is_error_row app_metrics r).
Proof.
  intros HT HI. split.
  - intros Hvalid HH. unfold outcome.
    rewrite (app3_fetch_answered w symbol isin info hist Hvalid HT HI HH).
    eexists. split; [reflexivity|].
    unfold degrades, dict_get, App3.default.
    repeat split.
    + by destruct (info !! "regularMarketPrice").
    + by destruct (info !! "fiftyTwoWeekHigh").
    + by destruct (info !! "fiftyTwoWeekLow").
    + intros Herr. unfold is_error_row, flagged, app3_metrics in Herr.
      rewrite !Forall_cons in Herr. destruct Herr as (_ & _ & _ & Hhigh & _).
      destruct (last hist); vm_compute in Hhigh; discriminate Hhigh.
  - intros HH. unfold outcome.
    rewrite (app_fetch_answered w symbol isin info hist HT HI HH).
    eexists. split; [reflexivity|].
    unfold degrades, dict_get.
    repeat split.
    + by destruct (info !! "regularMarketPrice").
    + by destruct (info !! "fiftyTwoWeekHigh").
    + by destruct (info !! "fiftyTwoWeekLow").
    + intros Herr. unfold is_error_row, flagged, app_metrics in Herr.
      rewrite !Forall_cons in Herr. destruct Herr as (_ & _ & _ & Hhigh & _).
      destruct (last hist); vm_compute in Hhigh; discriminate Hhigh.
Qed.

Lemma missing_snapshot_fields_degrade_independently_witness :
  (∃ r, outcome (App3.fetch_single_stock example_world (SStr "EXMP.NS") (SStr "A1"))
        = Ok r
        ∧ r !! "Current Price" = Some (PFloat 100.5%float)
        ∧ r !! "52‑Week High" = Some (PStr "N/A")
        ∧ r !! "52‑Week Low" = Some (Sc (SInt 80))
        ∧ ¬ is_error_row app3_metrics r)
  ∧
  (∃ r, outcome (App.fetch_single_stock example_world (SStr "EXMP.NS") (SStr "A1"))
        = Ok r
        ∧ r !! "Current Price" = Some (PFloat 100.5%float)
        ∧ r !! "52 Week High" = Some (PStr "N/A")
        ∧ r !! "52 Week Low" = Some (Sc (SInt 80))
        ∧ ¬ is_error_row app_metrics r).
Proof.
  destruct (missing_snapshot_fields_degrade_independently example_world
              (SStr "EXMP.NS") (SStr "A1") example_info example_history
              eq_refl eq_refl) as [H3 H1].
  split.
  - apply H3; [|reflexivity]. by apply valid_symbol_example.
  - apply H1. reflexivity.
Defined.

(** C10: on every path (fetched, invalid symbol, error) each fetcher returns
    a row whose ISIN and Symbol columns are the two arguments of the call,
    which carries a timestamp, and whose keys are always the same eight. *)
Theorem row_identifies_its_input (w : world) (symbol isin : scalar) :
  (∃ r, outcome (App.fetch_single_stock w symbol isin) = Ok r
        ∧ r !! "ISIN" = Some (Sc isin)
        ∧ r !! "Symbol" = Some (Sc symbol)
        ∧ r !! "Date" = Some (PStr (strftime_now w "%Y-%m-%d"))
        ∧ dom r = app_keys)
  ∧
  (∃ r, outcome (App3.fetch_single_stock w symbol isin) = Ok r
        ∧ r !! "ISIN" = Some (Sc isin)
        ∧ r !! "Symbol" = Some (Sc symbol)
        ∧ r !! "Scraped At" = Some (PStr (strftime_now w "%Y-%m-%d %H:%M:%S"))
        ∧ dom r = app3_keys).
Proof.
  split.
  - unfold App.fetch_single_stock. unfold_monad. simpl.
    destruct (yf_Ticker w symbol) as [[]|];
      [|eexists; repeat split; reflexivity].
    destruct (ticker_info w symbol) as [info|];
      [|eexists; repeat split; reflexivity].
    destruct (ticker_history w symbol "1d") as [hist|];
      [|eexists; repeat split; reflexivity].
    destruct hist as [|s hist]; [eexists; repeat split; reflexivity|].
    unfold iloc_last. simpl is_empty. simpl negb. cbv iota.
    rewrite !fmap_last.
    destruct (last (s :: hist)) eqn:L; [|by apply last_None in L].
    eexists; repeat split; reflexivity.
  - unfold App3.fetch_single_stock.
    destruct (negb (truthy symbol) || pd_isna symbol);
      [eexists; repeat split; reflexivity|].
    unfold_monad. simpl.
    destruct (yf_Ticker w symbol) as [[]|];
      [|eexists; repeat split; reflexivity].
    destruct (ticker_info w symbol) as [info|];
      [|eexists; repeat split; reflexivity].
    destruct (ticker_history w symbol "2d") as [hist|];
      [|eexists; repeat split; reflexivity].
    destruct hist as [|s hist]; [eexists; repeat split; reflexivity|].
    unfold iloc_last. simpl is_empty. cbv iota.
    destruct (last (s :: hist)) eqn:L; [|by apply last_None in L].
    eexists; repeat split; reflexivity.
Qed.

(** ** The parallel mapper *)

Lemma list_position_lt n idx i : list_position n idx = Ok i → (i < n)%nat.
Proof.
  unfold list_position.
  assert (∀ z, (if Z.leb 0 z && Z.ltb z (Z.of_nat n) then Ok (Z.to_nat z)
                else if Z.leb (- Z.of_nat n) z && Z.ltb z 0
                     then Ok (Z.to_nat (Z.of_nat n + z))
                     else Raise IndexError) = Ok i → (i < n)%nat) as Hint.
  { intros z.
    destruct (Z.leb 0 z && Z.ltb z (Z.of_nat n)) eqn:E1.
    - apply andb_true_iff in E1 as [H1 H2]. intros [= <-]. lia.
    - destruct (Z.leb (- Z.of_nat n) z && Z.ltb z 0) eqn:E2; [|discriminate].
      apply andb_true_iff in E2 as [H1 H2]. intros [= <-]. lia. }
  destruct idx; try discriminate; apply Hint.
Qed.

Lemma store_valid results fut idx i :
  list_position (length results) idx = Ok i →
  store results (fut, idx) = Ok (<[i := slot fut]> results).
Proof.
  intros Hidx. unfold store, list_setitem.
  destruct fut as [v|e]; simpl; by rewrite !Hidx.
Qed.

Lemma valid_index_position n idx :
  valid_index n idx → list_position n idx = Ok (position n idx).
Proof. intros [i Hi]. unfold position. by rewrite Hi. Qed.

(** The collecting loop never fails when every stored index is valid; it
    leaves alone the slots no future points to and, when no two futures point
    to the same slot, fills each slot from the future that points to it. *)
Lemma collect_spec n completed : ∀ results,
  length results = n →
  Forall (λ entry : future * scalar, valid_index n entry.2) completed →
  ∃ res, collect completed results = Ok res
    ∧ length res = n
    ∧ (∀ i, i ∉ (λ entry : future * scalar, position n entry.2) <$> completed →
            res !! i = results !! i)
    ∧ (NoDup ((λ entry : future * scalar, position n entry.2) <$> completed) →
       ∀ fut idx, (fut, idx) ∈ completed →
                  res !! position n idx = Some (slot fut)).
Proof.
  induction completed as [|[fut idx] rest IH]; intros results Hn Hvalid.
  - exists results. repeat split; try done.
    intros _ fut i Hin. by apply elem_of_nil in Hin.
  - apply Forall_cons in Hvalid as [Hidx Hrest]. simpl in Hidx.
    apply valid_index_position in Hidx.
    pose proof Hidx as Hlt. apply list_position_lt in Hlt.
    cbn [collect]. rewrite (store_valid _ _ _ (position n idx)) by by rewrite Hn.
    destruct (IH (<[position n idx := slot fut]> results))
      as (res & Hres & Hlen & Hout & Hin); [by rewrite length_insert|done|].
    exists res. repeat split; try done.
    + intros i Hi. rewrite fmap_cons in Hi.
      apply not_elem_of_cons in Hi as [Hne Hi].
      rewrite Hout by done. by apply list_lookup_insert_ne.
    + intros Hnodup fut' idx' Hmem. rewrite fmap_cons in Hnodup.
      apply NoDup_cons in Hnodup as [Hfresh Hnodup].
      apply elem_of_cons in Hmem as [[= -> ->]|Hmem]; [|by eapply Hin].
      rewrite Hout by done. apply list_lookup_insert_eq. by rewrite Hn.
Qed.

Section mapper.
Variable worker : row → future.

Lemma submitted_positions n (df : frame) :
  (λ entry : future * scalar, position n entry.2) <$> submitted worker df
  = (λ ir : scalar * row, position n ir.1) <$> df.
Proof. unfold submitted. rewrite <- list_fmap_compose. done. Qed.

(** On a frame whose labels denote distinct positions the mapper returns, in
    any order of completion, a list as long as the frame: the slot that the
    label of a row denotes holds the outcome of that row, and a slot that no
    label denotes is still [None]. *)
Lemma collect_any_order as_completed (df : frame) :
  any_order as_completed →
  distinct_positions df →
  ∃ results,
    collect (as_completed (submitted worker df)) (replicate (length df) PNone)
    = Ok results
    ∧ length results = length df
    ∧ (∀ l r, (l, r) ∈ df →
              results !! position (length df) l = Some (slot (worker r)))
    ∧ (∀ i, i ∉ (λ ir : scalar * row, position (length df) ir.1) <$> df →
            results !! i = replicate (length df) PNone !! i).
Proof.
  intros Hperm [Hvalid Hnodup]. specialize (Hperm (submitted worker df)).
  destruct (collect_spec (length df) (as_completed (submitted worker df))
              (replicate (length df) PNone))
    as (results & Hres & Hlen & Hout & Hin).
  { apply length_replicate. }
  { rewrite Hperm. unfold submitted. by apply Forall_fmap. }
  exists results. repeat split; try done.
  - intros l r Hmem. apply Hin.
    + by rewrite Hperm, submitted_positions.
    + rewrite Hperm. unfold submitted. apply list_elem_of_fmap.
      by exists (l, r).
  - intros i Hi. apply Hout. by rewrite Hperm, submitted_positions.
Qed.
End mapper.

Lemma list_position_default n i :
  (i < n)%nat → list_position n (SInt (Z.of_nat i)) = Ok i.
Proof.
  intros Hi. unfold list_position.
  replace (Z.leb 0 (Z.of_nat i) && Z.ltb (Z.of_nat i) (Z.of_nat n)) with true.
  - by rewrite Nat2Z.id.
  - symmetry. apply andb_true_iff. split; [apply Z.leb_le|apply Z.ltb_lt]; lia.
Qed.

(** With the default index the label of a row denotes its position. *)
Lemma default_index_lookup (df : frame) i l r :
  default_index df → df !! i = Some (l, r) →
  l = SInt (Z.of_nat i) ∧ position (length df) l = i.
Proof.
  intros Hdef Hi. pose proof (lookup_lt_Some _ _ _ Hi) as Hlt.
  rewrite Hdef in Hi. unfold with_default_index in Hi.
  rewrite list_lookup_imap in Hi.
  destruct (df.*2 !! i) as [r'|]; [|discriminate].
  injection Hi as <- <-. split; [done|].
  unfold position. by rewrite list_position_default.
Qed.

Lemma default_index_distinct (df : frame) :
  default_index df → distinct_positions df.
Proof.
  intros Hdef. split.
  - apply Forall_lookup. intros i [l r] Hi.
    destruct (default_index_lookup df i l r Hdef Hi) as [-> _].
    exists i. apply list_position_default. by eapply lookup_lt_Some.
  - apply NoDup_alt. intros i j p Hi Hj.
    rewrite list_lookup_fmap in Hi. rewrite list_lookup_fmap in Hj.
    destruct (df !! i) as [[li ri]|] eqn:Ei; [|discriminate].
    destruct (df !! j) as [[lj rj]|] eqn:Ej; [|discriminate].
    destruct (default_index_lookup df i li ri Hdef Ei) as [_ Hpi].
    destruct (default_index_lookup df j lj rj Hdef Ej) as [_ Hpj].
    simpl in Hi, Hj. congruence.
Qed.

(** The mapper on a frame with the default index: slot [i] holds the outcome
    of the row at position [i]. *)
Lemma collect_default_index worker as_completed (df : frame) :
  any_order as_completed →
  default_index df →
  ∃ results,
    collect (as_completed (submitted worker df)) (replicate (length df) PNone)
    = Ok results
    ∧ length results = length df
    ∧ ∀ i l r, df !! i = Some (l, r) → results !! i = Some (slot (worker r)).
Proof.
  intros Hany Hdef.
  destruct (collect_any_order worker as_completed df Hany
              (default_index_distinct df Hdef))
    as (results & Hres & Hlen & Hslots & _).
  exists results. repeat split; try done.
  intros i l r Hi.
  destruct (default_index_lookup df i l r Hdef Hi) as [_ <-].
  apply Hslots. by eapply list_elem_of_lookup_2.
Qed.

(** C2 (as stated, refuted): the slot is chosen by the index label of the
    row, not by its place in the table.  On a frame labelled 1, 0 the first
    slot holds the symbol of the second row although the first row resolved
    to nothing, and on a frame labelled 0, 5 no list is returned at all. *)
Lemma labels_other_than_positions_break_the_correspondence :
  any_order id
  ∧ example_swapped_table !! 0%nat
    = Some (SInt 1, {| COMPANYNAME := SFloat nan |})
  ∧ slot (outcome (App.get_yahoo_symbol_via_api example_world (SFloat nan)))
    = PNone
  ∧ App.fetch_yahoo_tickers_parallel id example_world example_swapped_table
    = Ok [PStr "EXMP.NS"; PNone]
  ∧ App3.fetch_yahoo_tickers_parallel id example_world example_swapped_table
    = Ok [PStr "EXMP.NS"; PNone]
  ∧ App.fetch_yahoo_tickers_parallel id example_world example_sparse_table
    = Raise IndexError
  ∧ App3.fetch_yahoo_tickers_parallel id example_world example_sparse_table
    = Raise IndexError.
Proof. split; [by intros futures|]. repeat split; reflexivity. Qed.

(** C2 (amended): on a frame with the default index (labels 0, 1, ..., as
    [pd.read_csv] gives them), whatever the order in which the pool completes
    the tasks, both mappers return a list as long as the table whose entry
    [i] is what the resolver gave for row [i] ([None] if it raised): the index
    stored with each future at submission decides the slot. *)
Theorem results_follow_submission_index
    (as_completed : list (future * scalar) → list (future * scalar))
    (w : world) (df : frame) :
  any_order as_completed →
  default_index df →
  (∃ results,
     App.fetch_yahoo_tickers_parallel as_completed w df = Ok results
     ∧ length results = length df
     ∧ ∀ i l r, df !! i = Some (l, r) →
         results !! i
         = Some (slot (outcome (App.get_yahoo_symbol_via_api w (COMPANYNAME r)))))
  ∧
  (∃ results,
     App3.fetch_yahoo_tickers_parallel as_completed w df = Ok results
     ∧ length results = length df
     ∧ ∀ i l r, df !! i = Some (l, r) →
         results !! i
         = Some (slot (outcome (App3.get_yahoo_symbol_via_api w (COMPANYNAME r))))).
Proof.
  intros Hany Hdef. split.
  - exact (collect_default_index
             (λ r, outcome (App.fetch_symbol w r)) as_completed df Hany Hdef).
  - exact (collect_default_index
             (λ r, outcome (App3.get_yahoo_symbol_via_api w (COMPANYNAME r)))
             as_completed df Hany Hdef).
Qed.

Lemma any_order_reverse : any_order reverse.
Proof. intros futures. apply reverse_Permutation. Defined.

Lemma results_follow_submission_index_witness :
  (∃ results,
     App.fetch_yahoo_tickers_parallel reverse example_world example_table
     = Ok results
     ∧ length results = 4%nat
     ∧ ∀ i l r, example_table !! i = Some (l, r) →
         results !! i
         = Some (slot (outcome (App.get_yahoo_symbol_via_api example_world
                                  (COMPANYNAME r)))))
  ∧
  (∃ results,
     App3.fetch_yahoo_tickers_parallel reverse example_world example_table
     = Ok results
     ∧ length results = 4%nat
     ∧ ∀ i l r, example_table !! i = Some (l, r) →
         results !! i
         = Some (slot (outcome (App3.get_yahoo_symbol_via_api example_world
                                  (COMPANYNAME r))))).
Proof.
  exact (results_follow_submission_index reverse example_world
           example_table any_order_reverse eq_refl).
Defined.

(** C3 (as stated, refuted): on a frame labelled 0, 5 the resolver raises on
    the first row and the mapper, instead of leaving [None] in its slot and
    going on, ends with the [IndexError] of the second row's label; on a
    frame labelled 1, 0 the slot of the failing first row holds the symbol of
    the second row. *)
Lemma worker_failure_on_relabelled_frame :
  any_order id
  ∧ example_sparse_table !! 0%nat
    = Some (SInt 0, {| COMPANYNAME := SFloat nan |})
  ∧ outcome (App.get_yahoo_symbol_via_api example_world (SFloat nan))
    = Raise AttributeError
  ∧ outcome (App3.get_yahoo_symbol_via_api example_world (SFloat nan))
    = Raise AttributeError
  ∧ App.fetch_yahoo_tickers_parallel id example_world example_sparse_table
    = Raise IndexError
  ∧ App3.fetch_yahoo_tickers_parallel id example_world example_sparse_table
    = Raise IndexError
  ∧ (∃ results,
       App.fetch_yahoo_tickers_parallel id example_world example_swapped_table
       = Ok results ∧ results !! 0%nat = Some (PStr "EXMP.NS")).
Proof.
  split; [by intros futures|]. repeat split; try reflexivity.
  eexists. split; reflexivity.
Qed.

(** C3 (amended): on a frame with the default index, if the resolver raises
    on row [k], the mapper still returns; slot [k] is [None], and every other
    slot whose resolver call returned holds the value of that call, in
    whatever order the tasks completed. *)
Theorem worker_failure_is_isolated
    (as_completed : list (future * scalar) → list (future * scalar))
    (w : world) (df : frame) (k : nat) (lk : scalar) (rk : row) :
  any_order as_completed →
  default_index df →
  df !! k = Some (lk, rk) →
  ((∃ e, outcome (App.get_yahoo_symbol_via_api w (COMPANYNAME rk)) = Raise e) →
   ∃ results,
     App.fetch_yahoo_tickers_parallel as_completed w df = Ok results
     ∧ results !! k = Some PNone
     ∧ ∀ j lj rj v, j ≠ k → df !! j = Some (lj, rj) →
         outcome (App.get_yahoo_symbol_via_api w (COMPANYNAME rj)) = Ok v →
         results !! j = Some v)
  ∧
  ((∃ e, outcome (App3.get_yahoo_symbol_via_api w (COMPANYNAME rk)) = Raise e) →
   ∃ results,
     App3.fetch_yahoo_tickers_parallel as_completed w df = Ok results
     ∧ results !! k = Some PNone
     ∧ ∀ j lj rj v, j ≠ k → df !! j = Some (lj, rj) →
         outcome (App3.get_yahoo_symbol_via_api w (COMPANYNAME rj)) = Ok v →
         results !! j = Some v).
Proof.
  intros Hany Hdef Hk. split; intros [e He].
  - destruct (collect_default_index
                (λ r, outcome (App.fetch_symbol w r)) as_completed df Hany Hdef)
      as (results & Hres & _ & Hslots).
    exists results. split; [exact Hres|]. split.
    + rewrite (Hslots k lk rk Hk). unfold App.fetch_symbol. by rewrite He.
    + intros j lj rj v _ Hj Hv.
      rewrite (Hslots j lj rj Hj). unfold App.fetch_symbol. by rewrite Hv.
  - destruct (collect_default_index
                (λ r, outcome (App3.get_yahoo_symbol_via_api w (COMPANYNAME r)))
                as_completed df Hany Hdef)
      as (results & Hres & _ & Hslots).
    exists results. split; [exact Hres|]. split.
    + rewrite (Hslots k lk rk Hk). by rewrite He.
    + intros j lj rj v _ Hj Hv. rewrite (Hslots j lj rj Hj). by rewrite Hv.
Qed.

Lemma worker_failure_is_isolated_witness :
  (∃ results,
     App.fetch_yahoo_tickers_parallel reverse example_world example_table
     = Ok results
     ∧ results !! 1%nat = Some PNone
     ∧ ∀ j lj rj v, j ≠ 1%nat → example_table !! j = Some (lj, rj) →
         outcome (App.get_yahoo_symbol_via_api example_world (COMPANYNAME rj))
         = Ok v →
         results !! j = Some v)
  ∧
  (∃ results,
     App3.fetch_yahoo_tickers_parallel reverse example_world example_table
     = Ok results
     ∧ results !! 1%nat = Some PNone
     ∧ ∀ j lj rj v, j ≠ 1%nat → example_table !! j = Some (lj, rj) →
         outcome (App3.get_yahoo_symbol_via_api example_world (COMPANYNAME rj))
         = Ok v →
         results !! j = Some v).
Proof.
  destruct (worker_failure_is_isolated reverse example_world example_table
              1 (SInt 1) {| COMPANYNAME := SFloat nan |}
              any_order_reverse eq_refl eq_refl) as [HA HB].
  split.
  - apply HA. exists AttributeError. reflexivity.
  - apply HB. exists AttributeError. reflexivity.
Defined.

Example mapper_on_example_table :
  App.fetch_yahoo_tickers_parallel reverse example_world example_table
  = Ok [PStr "EXMP.NS"; PNone; PNone; PStr "EXMP.NS"]
  ∧ App3.fetch_yahoo_tickers_parallel id example_world example_table
  = Ok [PStr "EXMP.NS"; PNone; PNone; PStr "EXMP.NS"].
Proof. split; reflexivity. Qed.

(** ** Further properties of the symbol resolver *)

(** X1: a company name that is not a string makes both resolvers raise
    [AttributeError] before anything is sent: the log of calls is empty. *)
Theorem non_string_name_raises_before_any_request
    (w : world) (company_name : scalar) :
  is_str company_name = false →
  run (App.get_yahoo_symbol_via_api w company_name) = (Raise AttributeError, [])
  ∧ run (App3.get_yahoo_symbol_via_api w company_name)
    = (Raise AttributeError, []).
Proof.
  intros Hstr. destruct company_name; try discriminate Hstr; split; reflexivity.
Qed.

Lemma non_string_name_raises_before_any_request_witness :
  run (App.get_yahoo_symbol_via_api example_world (SInt 7))
  = (Raise AttributeError, [])
  ∧ run (App3.get_yahoo_symbol_via_api example_world (SInt 7))
    = (Raise AttributeError, []).
Proof.
  apply (non_string_name_raises_before_any_request example_world (SInt 7)).
  reflexivity.
Defined.

Lemma list_ascii_of_string_app (s t : string) :
  String.list_ascii_of_string (s +:+ t)
  = (String.list_ascii_of_string s ++ String.list_ascii_of_string t)%list.
Proof. induction s as [|a s IH]; simpl; [done|]. by rewrite IH. Qed.

Lemma replace_space_no_space (s : string) :
  space ∉ String.list_ascii_of_string (replace_space s).
Proof.
  induction s as [|a s IH]; simpl.
  - apply not_elem_of_nil.
  - destruct (Ascii.eqb a (Ascii.ascii_of_nat 32)) eqn:E.
    + simpl. intros H.
      repeat (apply elem_of_cons in H as [H|H]; [discriminate H|]).
      contradiction.
    + simpl. intros H. apply elem_of_cons in H as [H|H]; [|contradiction].
      apply Ascii.eqb_neq in E. by destruct E.
Qed.

Lemma search_url_no_space :
  space ∉ String.list_ascii_of_string search_url.
Proof. apply (bool_decide_unpack _). by vm_compute. Qed.

(** X2: the URL of every request a resolver sends contains no space, whatever
    the company name. *)
Theorem search_request_url_has_no_space
    (w : world) (name : string) (req : request) :
  HttpGet req ∈ calls (App.get_yahoo_symbol_via_api w (SStr name))
  ∨ HttpGet req ∈ calls (App3.get_yahoo_symbol_via_api w (SStr name)) →
  space ∉ String.list_ascii_of_string (url req).
Proof.
  unfold calls. rewrite app_resolver_run, app3_resolver_run. simpl.
  intros [H|H]; apply list_elem_of_singleton in H; injection H as ->;
    unfold App.search_request, App3.search_request, url;
    rewrite list_ascii_of_string_app; apply not_elem_of_app;
    (split; [apply search_url_no_space|apply replace_space_no_space]).
Qed.

Lemma search_request_url_has_no_space_witness :
  space ∉ String.list_ascii_of_string
            (search_url +:+ replace_space "Tata Motors Ltd").
Proof.
  apply (search_request_url_has_no_space example_world "Tata Motors Ltd"
           (App3.search_request (replace_space "Tata Motors Ltd"))).
  right. vm_compute. apply list_elem_of_here.
Defined.

Lemma replace_space_id (s : string) :
  space ∉ String.list_ascii_of_string s → replace_space s = s.
Proof.
  induction s as [|a s IH]; simpl; [done|].
  intros H. apply not_elem_of_cons in H as [Hne H].
  destruct (Ascii.eqb a (Ascii.ascii_of_nat 32)) eqn:E.
  - apply Ascii.eqb_eq in E. by destruct Hne.
  - by rewrite IH.
Qed.

(** X3: a company name without spaces goes into the URL as it is: the space
    is the only character the resolvers escape. *)
Theorem name_without_space_is_sent_verbatim (w : world) (name : string) :
  space ∉ String.list_ascii_of_string name →
  calls (App.get_yahoo_symbol_via_api w (SStr name))
  = [HttpGet {| url := search_url +:+ name;
                headers := user_agent; timeout := None |}]
  ∧ calls (App3.get_yahoo_symbol_via_api w (SStr name))
    = [HttpGet {| url := search_url +:+ name;
                  headers := user_agent; timeout := Some 5 |}].
Proof.
  intros Hname. unfold calls. rewrite app_resolver_run, app3_resolver_run.
  simpl. unfold App.search_request, App3.search_request.
  by rewrite (replace_space_id name Hname).
Qed.

Lemma name_without_space_is_sent_verbatim_witness :
  calls (App.get_yahoo_symbol_via_api example_world (SStr "AT&T"))
  = [HttpGet {| url := search_url +:+ "AT&T";
                headers := user_agent; timeout := None |}]
  ∧ calls (App3.get_yahoo_symbol_via_api example_world (SStr "AT&T"))
    = [HttpGet {| url := search_url +:+ "AT&T";
                  headers := user_agent; timeout := Some 5 |}].
Proof.
  apply (name_without_space_is_sent_verbatim example_world "AT&T").
  apply (bool_decide_unpack _). by vm_compute.
Defined.

Lemma scan_quotes_found items v :
  scan_quotes items = Ok (Some v) →
  ∃ item, PDict item ∈ items ∧ accepted item
          ∧ v = dict_get item "symbol" PNone.
Proof.
  induction items as [|c items IH]; simpl; [discriminate|].
  destruct c as [c|l|item]; simpl; try discriminate.
  destruct (py_in_strs _ _) eqn:E.
  - intros [= <-]. exists item. split; [apply list_elem_of_here|].
    split; [by apply py_in_strs_accepted|done].
  - intros H. destruct (IH H) as (item' & Hin & Hacc & Hv).
    exists item'. split; [by apply list_elem_of_further|done].
Qed.

Lemma picked_symbol_found w req v :
  picked_symbol w req = v → v ≠ PNone →
  ∃ d qs item,
    search_response w req (PDict d)
    ∧ d !! "quotes" = Some (PList qs)
    ∧ PDict item ∈ qs ∧ accepted item ∧ item !! "symbol" = Some v.
Proof.
  unfold picked_symbol, search_response. intros Hv Hne.
  destruct (requests_get w req) as [r|]; [|congruence].
  destruct (json r) as [data|] eqn:Hdata; [|congruence].
  destruct data as [c|l|d]; simpl in Hv; try congruence.
  destruct (d !! "quotes") as [quotes|] eqn:Hq; simpl in Hv; [|congruence].
  destruct (py_iter quotes) as [items|] eqn:Hit; [|congruence].
  destruct (scan_quotes items) as [[symbol|]|] eqn:Hscan; try congruence.
  subst symbol.
  apply scan_quotes_found in Hscan as (item & Hin & Hacc & Hsym).
  assert (quotes = PList items) as ->.
  { destruct quotes as [[| | | |s]|l|d']; simpl in Hit; try discriminate.
    - injection Hit as <-. unfold chars in Hin.
      apply list_elem_of_fmap in Hin as (a & Ha & _). discriminate Ha.
    - by injection Hit as <-.
    - injection Hit as <-.
      apply list_elem_of_fmap in Hin as (kv & Hkv & _). discriminate Hkv. }
  exists d, items, item. split; [eauto|]. repeat split; try done.
  unfold dict_get in Hsym. destruct (item !! "symbol"); simpl in Hsym; congruence.
Qed.

(** X4: a symbol returned by a resolver is never made up: whenever the
    result is not [None], the search answered with an object whose [quotes]
    list holds a candidate on NSI or BSE that carries exactly this symbol. *)
Theorem returned_symbol_belongs_to_an_accepted_candidate
    (w : world) (name : string) (v : pyval) :
  v ≠ PNone →
  (outcome (App.get_yahoo_symbol_via_api w (SStr name)) = Ok v →
   ∃ d qs item,
     search_response w (App.search_request (replace_space name)) (PDict d)
     ∧ d !! "quotes" = Some (PList qs)
     ∧ PDict item ∈ qs ∧ accepted item ∧ item !! "symbol" = Some v)
  ∧
  (outcome (App3.get_yahoo_symbol_via_api w (SStr name)) = Ok v →
   ∃ d qs item,
     search_response w (App3.search_request (replace_space name)) (PDict d)
     ∧ d !! "quotes" = Some (PList qs)
     ∧ PDict item ∈ qs ∧ accepted item ∧ item !! "symbol" = Some v).
Proof.
  intros Hne. unfold outcome. rewrite app_resolver_run, app3_resolver_run.
  simpl. split; intros [= Hv]; by eapply picked_symbol_found.
Qed.

Lemma returned_symbol_belongs_to_an_accepted_candidate_witness :
  ∃ d qs item,
    search_response example_world
      (App3.search_request (replace_space "Example Corp")) (PDict d)
    ∧ d !! "quotes" = Some (PList qs)
    ∧ PDict item ∈ qs ∧ accepted item
    ∧ item !! "symbol" = Some (PStr "EXMP.NS").
Proof.
  refine (proj2 (returned_symbol_belongs_to_an_accepted_candidate
                   example_world "Example Corp" (PStr "EXMP.NS") _) eq_refl).
  discriminate.
Defined.

Lemma scan_quotes_malformed pre bad post :
  Forall rejected_candidate pre →
  (∀ item, bad ≠ PDict item) →
  scan_quotes (pre ++ bad :: post) = Raise AttributeError.
Proof.
  intros Hpre Hbad. induction Hpre as [|c pre [d [-> Hrej]] _ IH]; simpl.
  - destruct bad as [c|l|item]; try done. by destruct (Hbad item).
  - destruct (py_in_strs _ _) eqn:E; [|exact IH].
    apply py_in_strs_accepted in E. contradiction.
Qed.

(** X5: an entry of [quotes] that is not an object, met before any accepted
    candidate, ends the search with [None]: the candidates behind it are
    lost, accepted or not. *)
Theorem malformed_entry_hides_later_candidates
    (w : world) (name : string) (d : gmap string pyval)
    (pre : list pyval) (bad : pyval) (post : list pyval) :
  d !! "quotes" = Some (PList (pre ++ bad :: post)) →
  Forall rejected_candidate pre →
  (∀ item, bad ≠ PDict item) →
  (search_response w (App.search_request (replace_space name)) (PDict d) →
   outcome (App.get_yahoo_symbol_via_api w (SStr name)) = Ok PNone)
  ∧
  (search_response w (App3.search_request (replace_space name)) (PDict d) →
   outcome (App3.get_yahoo_symbol_via_api w (SStr name)) = Ok PNone).
Proof.
  intros Hq Hpre Hbad.
  pose proof (scan_quotes_malformed pre bad post Hpre Hbad) as Hscan.
  split; intros (r & Hr & Hd); unfold outcome.
  - rewrite app_resolver_run. unfold picked_symbol. simpl.
    rewrite Hr, Hd. simpl. rewrite Hq. simpl. by rewrite Hscan.
  - rewrite app3_resolver_run. unfold picked_symbol. simpl.
    rewrite Hr, Hd. simpl. rewrite Hq. simpl. by rewrite Hscan.
Qed.

Lemma malformed_entry_hides_later_candidates_witness :
  outcome (App.get_yahoo_symbol_via_api example_malformed_world
             (SStr "Example Corp")) = Ok PNone
  ∧ outcome (App3.get_yahoo_symbol_via_api example_malformed_world
               (SStr "Example Corp")) = Ok PNone.
Proof.
  assert (Hrej : Forall rejected_candidate
            [PDict {[ "exchange" := PStr "NYQ"; "symbol" := PStr "EXMP" ]}]).
  { constructor; [|constructor]. eexists. split; [reflexivity|].
    intros [H|H]; vm_compute in H; discriminate H. }
  assert (Hq : ({[ "quotes" := PList [
                   PDict {[ "exchange" := PStr "NYQ"; "symbol" := PStr "EXMP" ]};
                   PNone;
                   PDict {[ "exchange" := PStr "NSI"; "symbol" := PStr "EXMP.NS" ]} ] ]}
                 : gmap string pyval) !! "quotes"
               = Some (PList (
                   [PDict {[ "exchange" := PStr "NYQ"; "symbol" := PStr "EXMP" ]}]
                   ++ PNone
                   :: [PDict {[ "exchange" := PStr "NSI"; "symbol" := PStr "EXMP.NS" ]}]))).
  { vm_compute. reflexivity. }
  destruct (malformed_entry_hides_later_candidates example_malformed_world
              "Example Corp" _ _ _ _ Hq Hrej) as [HA HB].
  { intros item. discriminate. }
  split.
  - apply HA. exists {| json := Ok example_malformed_quotes |}.
    split; reflexivity.
  - apply HB. exists {| json := Ok example_malformed_quotes |}.
    split; reflexivity.
Defined.

(** X7: a [quotes] entry that is not a list never yields a symbol: when it is
    JSON null, a number, a string or an object, both resolvers return
    [None]. *)
Theorem quotes_of_wrong_type_give_None
    (w : world) (name : string) (d : gmap string pyval) (quotes : pyval) :
  d !! "quotes" = Some quotes →
  (∀ l, quotes ≠ PList l) →
  (search_response w (App.search_request (replace_space name)) (PDict d) →
   outcome (App.get_yahoo_symbol_via_api w (SStr name)) = Ok PNone)
  ∧
  (search_response w (App3.search_request (replace_space name)) (PDict d) →
   outcome (App3.get_yahoo_symbol_via_api w (SStr name)) = Ok PNone).
Proof.
  intros Hq Hnl.
  assert (match py_iter quotes with
          | Raise _ => PNone
          | Ok items =>
              match scan_quotes items with
              | Ok (Some symbol) => symbol
              | _ => PNone
              end
          end = PNone) as Hnone.
  { destruct quotes as [[| | | |s]|l|d']; simpl; try done.
    - unfold chars. by destruct (String.list_ascii_of_string s).
    - by destruct (Hnl l).
    - by destruct (map_to_list d'). }
  split; intros (r & Hr & Hd); unfold outcome.
  - rewrite app_resolver_run. unfold picked_symbol. simpl.
    rewrite Hr, Hd. simpl. rewrite Hq. simpl. by rewrite Hnone.
  - rewrite app3_resolver_run. unfold picked_symbol. simpl.
    rewrite Hr, Hd. simpl. rewrite Hq. simpl. by rewrite Hnone.
Qed.

Lemma quotes_of_wrong_type_give_None_witness :
  outcome (App.get_yahoo_symbol_via_api
             (answering (PDict {[ "quotes" := PStr "NSI" ]})) (SStr "Example"))
  = Ok PNone
  ∧ outcome (App3.get_yahoo_symbol_via_api
               (answering (PDict {[ "quotes" := PStr "NSI" ]})) (SStr "Example"))
    = Ok PNone.
Proof.
  assert (Hq : ({[ "quotes" := PStr "NSI" ]} : gmap string pyval) !! "quotes"
               = Some (PStr "NSI")).
  { vm_compute. reflexivity. }
  destruct (quotes_of_wrong_type_give_None
              (answering (PDict {[ "quotes" := PStr "NSI" ]})) "Example"
              _ _ Hq) as [HA HB].
  { intros l. discriminate. }
  split.
  - apply HA. eexists. split; reflexivity.
  - apply HB. eexists. split; reflexivity.
Defined.

(** X8: a call of a resolver sends at most one request, with no retry on any
    path, and every request carries the browser-like [User-Agent] header;
    those of [app3.py] also carry the timeout of five seconds.  This holds
    for every company name, string or not. *)
Theorem at_most_one_identified_request (w : world) (company_name : scalar) :
  ((length (calls (App.get_yahoo_symbol_via_api w company_name)) ≤ 1)%nat
   ∧ ∀ req, HttpGet req ∈ calls (App.get_yahoo_symbol_via_api w company_name) →
            headers req = [("User-Agent", "Mozilla/5.0")])
  ∧
  ((length (calls (App3.get_yahoo_symbol_via_api w company_name)) ≤ 1)%nat
   ∧ ∀ req, HttpGet req ∈ calls (App3.get_yahoo_symbol_via_api w company_name) →
            headers req = [("User-Agent", "Mozilla/5.0")]
            ∧ timeout req = Some 5).
Proof.
  destruct company_name as [| | | |name].
  5: { unfold calls. rewrite app_resolver_run, app3_resolver_run. simpl.
       repeat split; try lia; try intros req H;
         apply list_elem_of_singleton in H; by injection H as ->. }
  all: repeat split; try (cbv; lia); try intros req H; cbv in H;
    by apply elem_of_nil in H.
Qed.

(** ** Further properties of the quote fetcher *)

Lemma app_fetch_failed w symbol isin :
  provider_fails w symbol "1d" →
  outcome (App.fetch_single_stock w symbol isin)
  = Ok (App.error_row w symbol isin).
Proof.
  unfold App.fetch_single_stock. unfold_monad. simpl.
  intros [[e He]|[[e He]|[e He]]].
  - by rewrite He.
  - destruct (yf_Ticker w symbol) as [[]|]; [|done]. by rewrite He.
  - destruct (yf_Ticker w symbol) as [[]|]; [|done].
    destruct (ticker_info w symbol) as [info|]; [|done]. by rewrite He.
Qed.

Lemma app3_fetch_failed w symbol isin :
  ¬ invalid_symbol symbol →
  provider_fails w symbol "2d" →
  outcome (App3.fetch_single_stock w symbol isin)
  = Ok (App3.error_row w symbol isin).
Proof.
  intros Hvalid. unfold App3.fetch_single_stock.
  destruct (negb (truthy symbol) || pd_isna symbol) eqn:G.
  { destruct Hvalid. apply orb_true_iff in G as [G|G]; [left|by right].
    by apply negb_true_iff. }
  unfold_monad. simpl.
  intros [[e He]|[[e He]|[e He]]].
  - by rewrite He.
  - destruct (yf_Ticker w symbol) as [[]|]; [|done]. by rewrite He.
  - destruct (yf_Ticker w symbol) as [[]|]; [|done].
    destruct (ticker_info w symbol) as [info|]; [|done]. by rewrite He.
Qed.

Lemma provider_answers_or_fails w symbol period :
  provider_fails w symbol period
  ∨ ∃ info hist, yf_Ticker w symbol = Ok ()
                 ∧ ticker_info w symbol = Ok info
                 ∧ ticker_history w symbol period = Ok hist.
Proof.
  unfold provider_fails.
  destruct (yf_Ticker w symbol) as [[]|e]; [|eauto].
  destruct (ticker_info w symbol) as [info|e]; [|eauto].
  destruct (ticker_history w symbol period) as [hist|e]; [|eauto 6].
  right. eauto.
Qed.

Lemma answered_not_failed w symbol period info hist :
  yf_Ticker w symbol = Ok () →
  ticker_info w symbol = Ok info →
  ticker_history w symbol period = Ok hist →
  ¬ provider_fails w symbol period.
Proof. intros HT HI HH [[e He]|[[e He]|[e He]]]; congruence. Qed.

Lemma invalid_symbol_dec (symbol : scalar) :
  invalid_symbol symbol ∨ ¬ invalid_symbol symbol.
Proof.
  unfold invalid_symbol.
  destruct (truthy symbol), (pd_isna symbol); auto.
  right. intros [?|?]; discriminate.
Qed.

(** X9: a fetch ends in the error row exactly when the provider failed: when
    building the ticker, reading the snapshot or reading the history raised
    (and, in [app3.py], the symbol had passed the precondition).  A row whose
    five metrics read ["Error"] is never produced from data. *)
Theorem error_row_iff_provider_failed (w : world) (symbol isin : scalar) :
  (∃ r, outcome (App.fetch_single_stock w symbol isin) = Ok r
        ∧ (is_error_row app_metrics r ↔ provider_fails w symbol "1d"))
  ∧
  (∃ r, outcome (App3.fetch_single_stock w symbol isin) = Ok r
        ∧ (is_error_row app3_metrics r
           ↔ ¬ invalid_symbol symbol ∧ provider_fails w symbol "2d")).
Proof.
  split.
  - destruct (provider_answers_or_fails w symbol "1d")
      as [Hfail|(info & hist & HT & HI & HH)].
    + eexists. split; [by apply app_fetch_failed|].
      split; [done|]. intros _. repeat constructor.
    + unfold outcome. rewrite (app_fetch_answered _ _ _ _ _ HT HI HH).
      eexists. split; [reflexivity|]. split.
      * intros Herr. unfold is_error_row, flagged, app_metrics in Herr.
        rewrite !Forall_cons in Herr. destruct Herr as (_ & _ & _ & Hhigh & _).
        destruct (last hist); vm_compute in Hhigh; discriminate Hhigh.
      * intros Hfail. by destruct (answered_not_failed _ _ _ _ _ HT HI HH).
  - destruct (invalid_symbol_dec symbol) as [Hinv|Hvalid].
    { unfold outcome. rewrite (app3_fetch_invalid _ _ _ Hinv).
      eexists. split; [reflexivity|]. split; [|by intros []].
      intros Herr. unfold is_error_row, flagged, app3_metrics in Herr.
      rewrite !Forall_cons in Herr. destruct Herr as (Hprice & _).
      vm_compute in Hprice. discriminate Hprice. }
    destruct (provider_answers_or_fails w symbol "2d")
      as [Hfail|(info & hist & HT & HI & HH)].
    + eexists. split; [by apply app3_fetch_failed|].
      split; [done|]. intros _. repeat constructor.
    + unfold outcome. rewrite (app3_fetch_answered _ _ _ _ _ Hvalid HT HI HH).
      eexists. split; [reflexivity|]. split.
      * intros Herr. unfold is_error_row, flagged, app3_metrics in Herr.
        rewrite !Forall_cons in Herr. destruct Herr as (_ & _ & _ & Hhigh & _).
        destruct (last hist); vm_compute in Hhigh; discriminate Hhigh.
      * intros [_ Hfail]. by destruct (answered_not_failed _ _ _ _ _ HT HI HH).
Qed.

(** X10: in [app3.py] the four columns after the price read ["Invalid"]
    exactly when the symbol failed the precondition: neither provider data
    nor a provider failure can produce that marking. *)
Theorem invalid_marking_iff_invalid_symbol (w : world) (symbol isin : scalar) :
  ∃ r, outcome (App3.fetch_single_stock w symbol isin) = Ok r
       ∧ (flagged [ "52‑Week High"; "52‑Week Low";
                    "Today's High"; "Today's Low" ] "Invalid" r
          ↔ invalid_symbol symbol).
Proof.
  destruct (invalid_symbol_dec symbol) as [Hinv|Hvalid].
  { unfold outcome. rewrite (app3_fetch_invalid _ _ _ Hinv).
    eexists. split; [reflexivity|]. split; [done|].
    intros _. repeat constructor. }
  destruct (provider_answers_or_fails w symbol "2d")
    as [Hfail|(info & hist & HT & HI & HH)].
  - eexists. split; [by apply app3_fetch_failed|].
    split; [|done]. intros Hflag. unfold flagged in Hflag.
    rewrite !Forall_cons in Hflag. destruct Hflag as (Hhigh & _).
    vm_compute in Hhigh. discriminate Hhigh.
  - unfold outcome. rewrite (app3_fetch_answered _ _ _ _ _ Hvalid HT HI HH).
    eexists. split; [reflexivity|]. split; [|done].
    intros Hflag. unfold flagged in Hflag.
    rewrite !Forall_cons in Hflag. destruct Hflag as (_ & _ & Hhigh & _).
    destruct (last hist); vm_compute in Hhigh; discriminate Hhigh.
Qed.

(** X11: the provider calls of a fetch follow one protocol: the ticker, then
    the snapshot, then the history, each only if the one before answered; a
    fetch makes no HTTP request of its own and never goes on after a
    failure.  [app.py] asks for one day of history and always builds the
    ticker; [app3.py] asks for two days and calls nothing for an invalid
    symbol. *)
Theorem provider_calls_stop_at_first_failure
    (w : world) (symbol isin : scalar) :
  calls (App.fetch_single_stock w symbol isin)
  = match yf_Ticker w symbol, ticker_info w symbol with
    | Raise _, _ => [YfTicker symbol]
    | Ok _, Raise _ => [YfTicker symbol; YfInfo symbol]
    | Ok _, Ok _ => [YfTicker symbol; YfInfo symbol; YfHistory symbol "1d"]
    end
  ∧ calls (App3.fetch_single_stock w symbol isin)
    = if negb (truthy symbol) || pd_isna symbol then []
      else match yf_Ticker w symbol, ticker_info w symbol with
           | Raise _, _ => [YfTicker symbol]
           | Ok _, Raise _ => [YfTicker symbol; YfInfo symbol]
           | Ok _, Ok _ =>
               [YfTicker symbol; YfInfo symbol; YfHistory symbol "2d"]
           end.
Proof.
  split.
  - unfold App.fetch_single_stock. unfold_monad. simpl.
    destruct (yf_Ticker w symbol) as [[]|]; [|done].
    destruct (ticker_info w symbol) as [info|]; [|done].
    destruct (ticker_history w symbol "1d") as [[|s hist]|]; try done.
    unfold iloc_last. simpl is_empty. simpl negb. cbv iota.
    rewrite !fmap_last.
    by destruct (last (s :: hist)).
  - unfold App3.fetch_single_stock.
    destruct (negb (truthy symbol) || pd_isna symbol); [done|].
    unfold_monad. simpl.
    destruct (yf_Ticker w symbol) as [[]|]; [|done].
    destruct (ticker_info w symbol) as [info|]; [|done].
    destruct (ticker_history w symbol "2d") as [[|s hist]|]; try done.
    unfold iloc_last. simpl is_empty. cbv iota.
    by destruct (last (s :: hist)).
Qed.

(** ** Further properties of the parallel mapper *)

Lemma list_position_out_of_range n z :
  (z < - Z.of_nat n ∨ Z.of_nat n ≤ z)%Z →
  list_position n (SInt z) = Raise IndexError.
Proof.
  intros Hz. unfold list_position.
  replace (Z.leb 0 z && Z.ltb z (Z.of_nat n)) with false.
  - replace (Z.leb (- Z.of_nat n) z && Z.ltb z 0) with false; [done|].
    symmetry. apply andb_false_iff.
    destruct Hz; [left; apply Z.leb_gt|right; apply Z.ltb_ge]; lia.
  - symmetry. apply andb_false_iff.
    destruct Hz; [left; apply Z.leb_gt|right; apply Z.ltb_ge]; lia.
Qed.

Lemma store_invalid results fut idx e :
  list_position (length results) idx = Raise e →
  store results (fut, idx) = Raise e.
Proof.
  intros Hidx. unfold store, list_setitem.
  destruct fut as [v|e']; simpl; by rewrite !Hidx.
Qed.

(** X12: the collecting loop depends on every stored index being a position
    of the result list.  If the stored indices are integers and one of them
    lies outside the list (beyond its end, or before its start when counted
    from the back), the assignment in the [try] raises [IndexError], the
    handler's own assignment raises it again, and the loop ends with that
    exception whether the worker had succeeded or not. *)
Theorem collect_raises_on_index_out_of_range
    (completed : list (future * scalar)) (results : list pyval) :
  Forall (λ entry : future * scalar, ∃ z, entry.2 = SInt z) completed →
  Exists (λ entry : future * scalar,
            ∃ z, entry.2 = SInt z
                 ∧ (z < - Z.of_nat (length results)
                    ∨ Z.of_nat (length results) ≤ z)%Z) completed →
  collect completed results = Raise IndexError.
Proof.
  revert results.
  induction completed as [|[fut idx] rest IH]; intros results Hint Hout.
  - by apply Exists_nil in Hout.
  - apply Forall_cons in Hint as [[z Hz] Hint]. simpl in Hz. subst idx.
    cbn [collect].
    destruct (list_position (length results) (SInt z)) as [i|e] eqn:Hpos.
    + rewrite (store_valid _ _ _ i) by done. apply IH; [done|].
      apply Exists_cons in Hout as [(z' & [= <-] & Hrange)|Hrest].
      * rewrite list_position_out_of_range in Hpos by done. discriminate Hpos.
      * eapply Exists_impl; [exact Hrest|]. intros entry.
        by rewrite length_insert.
    + rewrite (store_invalid _ _ _ e) by done.
      unfold list_position in Hpos.
      destruct (Z.leb 0 z && Z.ltb z (Z.of_nat (length results)));
        [discriminate|].
      destruct (Z.leb (- Z.of_nat (length results)) z && Z.ltb z 0);
        [discriminate|].
      by injection Hpos as <-.
Qed.

Lemma collect_raises_on_index_out_of_range_witness :
  collect [(Ok (PStr "A.NS"), SInt 0); (Ok (PStr "B.NS"), SInt 5)]
    [PNone; PNone]
  = Raise IndexError.
Proof.
  apply (collect_raises_on_index_out_of_range
           [(Ok (PStr "A.NS"), SInt 0); (Ok (PStr "B.NS"), SInt 5)]
           [PNone; PNone]).
  - repeat constructor; eexists; reflexivity.
  - apply Exists_cons_tl, Exists_cons_hd. exists 5. simpl. split; [done|lia].
Defined.

(** X13: on a frame whose index labels denote pairwise distinct positions of
    the result list (the default index is one), the list a mapper returns
    does not depend on the order in which the pool completes the tasks: any
    two completion orders give the same list. *)
Theorem mapper_result_is_independent_of_completion_order
    (order1 order2 : list (future * scalar) → list (future * scalar))
    (w : world) (df : frame) :
  any_order order1 →
  any_order order2 →
  distinct_positions df →
  App.fetch_yahoo_tickers_parallel order1 w df
  = App.fetch_yahoo_tickers_parallel order2 w df
  ∧ App3.fetch_yahoo_tickers_parallel order1 w df
    = App3.fetch_yahoo_tickers_parallel order2 w df.
Proof.
  intros H1 H2 Hdistinct.
  assert (∀ worker, collect (order1 (submitted worker df))
                      (replicate (length df) PNone)
                    = collect (order2 (submitted worker df))
                        (replicate (length df) PNone)) as Hsame.
  { intros worker.
    destruct (collect_any_order worker order1 df H1 Hdistinct)
      as (r1 & -> & Hl1 & Hs1 & Ho1).
    destruct (collect_any_order worker order2 df H2 Hdistinct)
      as (r2 & -> & Hl2 & Hs2 & Ho2).
    f_equal. apply list_eq. intros i.
    destruct (decide (i ∈ (λ ir : scalar * row, position (length df) ir.1)
                            <$> df)) as [Hin|Hout].
    - apply list_elem_of_fmap in Hin as ([l r] & -> & Hmem). simpl.
      by rewrite (Hs1 l r Hmem), (Hs2 l r Hmem).
    - by rewrite (Ho1 i Hout), (Ho2 i Hout). }
  split.
  - exact (Hsame (λ r, outcome (App.fetch_symbol w r))).
  - exact (Hsame (λ r, outcome (App3.get_yahoo_symbol_via_api w (COMPANYNAME r)))).
Qed.

Lemma mapper_result_is_independent_of_completion_order_witness :
  App.fetch_yahoo_tickers_parallel reverse example_world example_swapped_table
  = App.fetch_yahoo_tickers_parallel id example_world example_swapped_table
  ∧ App3.fetch_yahoo_tickers_parallel reverse example_world example_swapped_table
    = App3.fetch_yahoo_tickers_parallel id example_world example_swapped_table.
Proof.
  apply (mapper_result_is_independent_of_completion_order reverse id
           example_world example_swapped_table).
  - exact any_order_reverse.
  - intros futures. reflexivity.
  - split.
    + repeat constructor; eexists; reflexivity.
    + vm_compute. repeat constructor; intros H;
        repeat (apply elem_of_cons in H as [H|H]; [discriminate H|]);
        by apply elem_of_nil in H.
Defined.

(** Two rows with the same label share a slot, and the future that completes
    last keeps it. *)
Example repeated_label_depends_on_completion_order :
  App.fetch_yahoo_tickers_parallel id example_world example_repeated_table
  = Ok [PNone; PNone]
  ∧ App.fetch_yahoo_tickers_parallel reverse example_world example_repeated_table
    = Ok [PStr "EXMP.NS"; PNone].
Proof. split; reflexivity. Qed.

(** ** The third step: fetching the quotes of the whole table *)

Lemma app_fetch_returns w symbol isin :
  ∃ r, outcome (App.fetch_single_stock w symbol isin) = Ok r
       ∧ r !! "Symbol" = Some (Sc symbol) ∧ r !! "ISIN" = Some (Sc isin).
Proof.
  destruct (provider_answers_or_fails w symbol "1d")
    as [Hfail|(info & hist & HT & HI & HH)].
  - eexists. split; [by apply app_fetch_failed|]. split; reflexivity.
  - unfold outcome. rewrite (app_fetch_answered _ _ _ _ _ HT HI HH).
    eexists. split; [reflexivity|]. split; reflexivity.
Qed.

Lemma app3_fetch_returns w symbol isin :
  ∃ r, outcome (App3.fetch_single_stock w symbol isin) = Ok r
       ∧ r !! "Symbol" = Some (Sc symbol) ∧ r !! "ISIN" = Some (Sc isin).
Proof.
  destruct (invalid_symbol_dec symbol) as [Hinv|Hvalid].
  { unfold outcome. rewrite (app3_fetch_invalid _ _ _ Hinv).
    eexists. split; [reflexivity|]. split; reflexivity. }
  destruct (provider_answers_or_fails w symbol "2d")
    as [Hfail|(info & hist & HT & HI & HH)].
  - eexists. split; [by apply app3_fetch_failed|]. split; reflexivity.
  - unfold outcome. rewrite (app3_fetch_answered _ _ _ _ _ Hvalid HT HI HH).
    eexists. split; [reflexivity|]. split; reflexivity.
Qed.

Lemma gather_all_ok (rows data : list (gmap string pyval)) :
  gather (Ok <$> rows) data = Ok (data ++ rows)%list.
Proof.
  revert data. induction rows as [|r rows IH]; intros data; simpl.
  - by rewrite app_nil_r.
  - rewrite IH. by rewrite <- app_assoc.
Qed.

Lemma all_ok_fmap {A} (futures : list (result A)) :
  Forall (λ fut, ∃ a, fut = Ok a) futures → ∃ l, futures = Ok <$> l.
Proof.
  induction 1 as [|fut futures [a ->] _ [l ->]].
  - by exists [].
  - by exists (a :: l).
Qed.

(** Collecting futures that all hold a row, in any order of completion. *)
Lemma gather_any_order
    (as_completed : list (result (gmap string pyval))
                    → list (result (gmap string pyval)))
    (futures : list (result (gmap string pyval))) :
  completion_order as_completed →
  Forall (λ fut, ∃ r, fut = Ok r) futures →
  ∃ data, gather (as_completed futures) [] = Ok data
          ∧ Ok <$> data ≡ₚ futures.
Proof.
  intros Hperm Hok. specialize (Hperm futures).
  rewrite <- Hperm in Hok.
  destruct (all_ok_fmap _ Hok) as [data Hdata].
  exists data. rewrite Hdata, gather_all_ok. split; [done|].
  by rewrite <- Hdata.
Qed.

Lemma app_submit_quotes_all_ok w df_yahoo :
  Forall (λ fut, ∃ r, fut = Ok r) (App.submit_quotes w df_yahoo).
Proof.
  apply Forall_fmap, Forall_forall. intros row _. simpl.
  destruct (app_fetch_returns w (YAHOO_SYMBOL row) (row_get_ISIN row))
    as (r & Hr & _). eauto.
Qed.

Lemma app3_submit_quotes_all_ok w df_yahoo :
  Forall (λ fut, ∃ r, fut = Ok r) (App3.submit_quotes w df_yahoo).
Proof.
  apply Forall_fmap, Forall_forall. intros row _. simpl.
  destruct (app3_fetch_returns w (YAHOO_SYMBOL row) (row_get_ISIN row))
    as (r & Hr & _). eauto.
Qed.

(** X14: the third step never fails and loses or invents no row: in whatever
    order the fetches complete, the collected rows are, up to their order,
    exactly the rows of the fetches submitted for the table, one for each
    ticker. *)
Theorem fetched_rows_are_a_permutation_of_the_fetches
    (as_completed : list (result (gmap string pyval))
                    → list (result (gmap string pyval)))
    (w : world) (df_yahoo : list ticker_row) :
  completion_order as_completed →
  (∃ data, App.fetch_live_stock_data as_completed w df_yahoo = Ok data
           ∧ Ok <$> data ≡ₚ App.submit_quotes w df_yahoo
           ∧ length data = length df_yahoo)
  ∧
  (∃ data, App3.fetch_current_data as_completed w df_yahoo = Ok data
           ∧ Ok <$> data ≡ₚ App3.submit_quotes w df_yahoo
           ∧ length data = length df_yahoo).
Proof.
  intros Hperm. split.
  - destruct (gather_any_order as_completed (App.submit_quotes w df_yahoo)
                Hperm (app_submit_quotes_all_ok w df_yahoo))
      as (data & Hdata & Hp).
    exists data. repeat split; try done.
    apply Permutation_length in Hp.
    unfold App.submit_quotes in Hp. by rewrite !length_fmap in Hp.
  - destruct (gather_any_order as_completed (App3.submit_quotes w df_yahoo)
                Hperm (app3_submit_quotes_all_ok w df_yahoo))
      as (data & Hdata & Hp).
    exists data. repeat split; try done.
    apply Permutation_length in Hp.
    unfold App3.submit_quotes in Hp. by rewrite !length_fmap in Hp.
Qed.

Lemma completion_order_reverse {A} : completion_order (@reverse A).
Proof. intros futures. apply reverse_Permutation. Defined.

Lemma fetched_rows_are_a_permutation_of_the_fetches_witness :
  ∃ data,
    App3.fetch_current_data reverse example_world example_tickers = Ok data
    ∧ Ok <$> data ≡ₚ App3.submit_quotes example_world example_tickers
    ∧ length data = 3%nat.
Proof.
  exact (proj2 (fetched_rows_are_a_permutation_of_the_fetches reverse
                  example_world example_tickers completion_order_reverse)).
Defined.

(** X15: the collected rows come in completion order, yet each can be traced:
    every ticker of the table has a collected row that bears its symbol and
    its ISIN (the empty string when the table has no ISIN column), and every
    collected row bears the symbol and ISIN of some ticker of the table. *)
Theorem every_fetched_row_names_its_ticker
    (as_completed : list (result (gmap string pyval))
                    → list (result (gmap string pyval)))
    (w : world) (df_yahoo : list ticker_row) :
  completion_order as_completed →
  (∃ data, App.fetch_live_stock_data as_completed w df_yahoo = Ok data
     ∧ (∀ row, row ∈ df_yahoo →
          ∃ r, r ∈ data ∧ r !! "Symbol" = Some (Sc (YAHOO_SYMBOL row))
               ∧ r !! "ISIN" = Some (Sc (row_get_ISIN row)))
     ∧ (∀ r, r ∈ data →
          ∃ row, row ∈ df_yahoo ∧ r !! "Symbol" = Some (Sc (YAHOO_SYMBOL row))
                 ∧ r !! "ISIN" = Some (Sc (row_get_ISIN row))))
  ∧
  (∃ data, App3.fetch_current_data as_completed w df_yahoo = Ok data
     ∧ (∀ row, row ∈ df_yahoo →
          ∃ r, r ∈ data ∧ r !! "Symbol" = Some (Sc (YAHOO_SYMBOL row))
               ∧ r !! "ISIN" = Some (Sc (row_get_ISIN row)))
     ∧ (∀ r, r ∈ data →
          ∃ row, row ∈ df_yahoo ∧ r !! "Symbol" = Some (Sc (YAHOO_SYMBOL row))
                 ∧ r !! "ISIN" = Some (Sc (row_get_ISIN row)))).
Proof.
  intros Hperm. split.
  - destruct (gather_any_order as_completed (App.submit_quotes w df_yahoo)
                Hperm (app_submit_quotes_all_ok w df_yahoo))
      as (data & Hdata & Hp).
    exists data. split; [exact Hdata|]. split.
    + intros row Hrow.
      destruct (app_fetch_returns w (YAHOO_SYMBOL row) (row_get_ISIN row))
        as (r & Hr & Hsym & Hisin).
      exists r. split; [|done].
      assert (Ok r ∈ Ok <$> data) as Hin.
      { rewrite Hp, <- Hr. unfold App.submit_quotes.
        apply list_elem_of_fmap. by exists row. }
      apply list_elem_of_fmap in Hin as (r' & [= ->] & Hin). exact Hin.
    + intros r Hr.
      assert (Ok r ∈ App.submit_quotes w df_yahoo) as Hin.
      { rewrite <- Hp. apply list_elem_of_fmap. by exists r. }
      apply list_elem_of_fmap in Hin as (row & Hrow & Hin).
      exists row. split; [done|].
      destruct (app_fetch_returns w (YAHOO_SYMBOL row) (row_get_ISIN row))
        as (r' & Hr' & Hsym & Hisin).
      rewrite Hr' in Hrow. by injection Hrow as ->.
  - destruct (gather_any_order as_completed (App3.submit_quotes w df_yahoo)
                Hperm (app3_submit_quotes_all_ok w df_yahoo))
      as (data & Hdata & Hp).
    exists data. split; [exact Hdata|]. split.
    + intros row Hrow.
      destruct (app3_fetch_returns w (YAHOO_SYMBOL row) (row_get_ISIN row))
        as (r & Hr & Hsym & Hisin).
      exists r. split; [|done].
      assert (Ok r ∈ Ok <$> data) as Hin.
      { rewrite Hp, <- Hr. unfold App3.submit_quotes.
        apply list_elem_of_fmap. by exists row. }
      apply list_elem_of_fmap in Hin as (r' & [= ->] & Hin). exact Hin.
    + intros r Hr.
      assert (Ok r ∈ App3.submit_quotes w df_yahoo) as Hin.
      { rewrite <- Hp. apply list_elem_of_fmap. by exists r. }
      apply list_elem_of_fmap in Hin as (row & Hrow & Hin).
      exists row. split; [done|].
      destruct (app3_fetch_returns w (YAHOO_SYMBOL row) (row_get_ISIN row))
        as (r' & Hr' & Hsym & Hisin).
      rewrite Hr' in Hrow. by injection Hrow as ->.
Qed.

Lemma every_fetched_row_names_its_ticker_witness :
  ∃ data,
    App.fetch_live_stock_data reverse example_world example_tickers = Ok data
    ∧ (∀ row, row ∈ example_tickers →
         ∃ r, r ∈ data ∧ r !! "Symbol" = Some (Sc (YAHOO_SYMBOL row))
              ∧ r !! "ISIN" = Some (Sc (row_get_ISIN row)))
    ∧ (∀ r, r ∈ data →
         ∃ row, row ∈ example_tickers
                ∧ r !! "Symbol" = Some (Sc (YAHOO_SYMBOL row))
                ∧ r !! "ISIN" = Some (Sc (row_get_ISIN row))).
Proof.
  exact (proj1 (every_fetched_row_names_its_ticker reverse example_world
                  example_tickers completion_order_reverse)).
Defined.

Lemma column_is_Forall column sentinel data :
  App3.column_is column sentinel data = true
  ↔ Forall (λ r : gmap string pyval, r !! column = Some (PStr sentinel)) data.
Proof.
  unfold App3.column_is. induction data as [|r data IH]; simpl.
  - split; [constructor|done].
  - rewrite Forall_cons, andb_true_iff, IH.
    enough (match r !! column with
            | Some (PStr s) => bool_decide (s = sentinel)
            | _ => false
            end = true ↔ r !! column = Some (PStr sentinel)) as -> by done.
    destruct (r !! column) as [[[| | | |s]| |]|];
      try (split; [discriminate|intros [=]]).
    rewrite bool_decide_eq_true. split; [by intros ->|by intros [= ->]].
Qed.

(** A fetched row of [app3.py] shows ["N/A"] in both columns for today
    exactly when the symbol is valid and the provider answered with an empty
    history. *)
Lemma app3_row_unavailable w symbol isin r :
  outcome (App3.fetch_single_stock w symbol isin) = Ok r →
  r !! "Today's High" = Some (PStr "N/A") ∧ r !! "Today's Low" = Some (PStr "N/A")
  ↔ ¬ invalid_symbol symbol ∧ market_closed w symbol "2d".
Proof.
  destruct (invalid_symbol_dec symbol) as [Hinv|Hvalid].
  { unfold outcome. rewrite (app3_fetch_invalid _ _ _ Hinv).
    intros [= <-]. split; [|by intros []].
    intros [Hhigh _]. vm_compute in Hhigh. discriminate Hhigh. }
  destruct (provider_answers_or_fails w symbol "2d")
    as [Hfail|(info & hist & HT & HI & HH)].
  - rewrite (app3_fetch_failed _ _ _ Hvalid Hfail). intros [= <-]. split.
    + intros [Hhigh _]. vm_compute in Hhigh. discriminate Hhigh.
    + intros (_ & HT & (info & HI) & HH).
      by destruct (answered_not_failed _ _ _ _ _ HT HI HH).
  - unfold outcome. rewrite (app3_fetch_answered _ _ _ _ _ Hvalid HT HI HH).
    intros [= <-]. split.
    + intros [Hhigh _]. split; [done|].
      split; [done|]. split; [eauto|].
      rewrite HH. f_equal. apply last_None.
      destruct (last hist); [|done].
      vm_compute in Hhigh. discriminate Hhigh.
    + intros (_ & _ & _ & HH'). rewrite HH in HH'. injection HH' as ->.
      split; reflexivity.
Qed.

(** X16: the alarm of [app3.py] ("All values are N/A") on a table that is not
    empty is raised exactly when every ticker has a valid symbol and the
    provider answered each with an empty history, in whatever order the
    fetches complete.  One ticker with an invalid symbol, a provider failure
    or a session in its history keeps the alarm silent. *)
Theorem alarm_iff_every_history_is_empty
    (as_completed : list (result (gmap string pyval))
                    → list (result (gmap string pyval)))
    (w : world) (df_yahoo : list ticker_row) :
  completion_order as_completed →
  df_yahoo ≠ [] →
  ∃ data, App3.fetch_current_data as_completed w df_yahoo = Ok data
    ∧ (App3.all_values_are_NA data = true
       ↔ Forall (λ row, ¬ invalid_symbol (YAHOO_SYMBOL row)
                        ∧ market_closed w (YAHOO_SYMBOL row) "2d") df_yahoo).
Proof.
  intros Hperm _.
  destruct (gather_any_order as_completed (App3.submit_quotes w df_yahoo)
              Hperm (app3_submit_quotes_all_ok w df_yahoo))
    as (data & Hdata & Hp).
  exists data. split; [exact Hdata|].
  unfold App3.all_values_are_NA.
  rewrite andb_true_iff, !column_is_Forall, <- Forall_and.
  set (P := λ fut : result (gmap string pyval),
              ∀ r, fut = Ok r →
                   r !! "Today's High" = Some (PStr "N/A")
                   ∧ r !! "Today's Low" = Some (PStr "N/A")).
  transitivity (Forall P (Ok <$> data)).
  { rewrite Forall_fmap. apply Forall_iff. intros r. unfold P. simpl.
    split; [by intros H r' [= <-]|by intros H; apply H]. }
  rewrite Hp. unfold App3.submit_quotes. rewrite Forall_fmap.
  apply Forall_iff. intros row. unfold P. simpl.
  destruct (app3_fetch_returns w (YAHOO_SYMBOL row) (row_get_ISIN row))
    as (r & Hr & _).
  rewrite <- (app3_row_unavailable w _ _ r Hr). rewrite Hr.
  split; [by intros H; apply H|by intros H r' [= <-]].
Qed.

Lemma alarm_iff_every_history_is_empty_witness :
  ∃ data,
    App3.fetch_current_data reverse example_world example_idle_tickers = Ok data
    ∧ (App3.all_values_are_NA data = true
       ↔ Forall (λ row, ¬ invalid_symbol (YAHOO_SYMBOL row)
                        ∧ market_closed example_world (YAHOO_SYMBOL row) "2d")
            example_idle_tickers).
Proof.
  apply (alarm_iff_every_history_is_empty reverse example_world
           example_idle_tickers completion_order_reverse).
  discriminate.
Defined.

Example alarm_on_idle_tickers :
  (∃ data,
     App3.fetch_current_data reverse example_world example_idle_tickers
     = Ok data ∧ App3.all_values_are_NA data = true)
  ∧ (∃ data,
       App3.fetch_current_data reverse example_world example_tickers = Ok data
       ∧ App3.all_values_are_NA data = false).
Proof. split; eexists; split; reflexivity. Qed.
